(** * Image processing API: the watermark layout generator and its handlers

    A shallow embedding of [src/controllers/imageController.ts].

    Conventions of the embedding.
    - The layout generator is embedded twice.  In [Watermark] a
      JavaScript [number] of the layout arithmetic (image width and
      height, font size, anchor coordinates, random draws) is an exact
      rational [Q]; this serves where rounding does not change what is
      stated (the 25 elements of the grid, the 50 scattered elements and
      their ranges, the attributes shared by all elements).  In
      [Watermark64] every number is an IEEE binary64 value and every
      operation the rounded one; this is the embedding for what depends on
      the accumulated loop variable: which anchors the diagonal tiling and
      the grid have, how many, and whether the loops end.
    - A [number] produced by [parseInt] is [NaN] or an integer; a string
      is a sequence of code units below 256.
    - A value that may be [undefined] is an [option]; [req.query] and
      [req.body] are finite maps from parameter names to strings.
    - The markup string [svgContent] is kept structured: the header carries
      the canvas size and every [<text>] chunk appended to it is one
      [TextElement] record, in the order of the appends.
    - [Math.random], [Date.now], the sharp pipeline and the file system are
      the environment of a request: a stream of draws with a cursor, a clock
      value, the outcome of each library call and a set of paths.
    - A [for] loop runs on fuel; [None] means the fuel ran out.
    - [Binary64] replays the header of the grid loops in IEEE double
      arithmetic, as a check of the exact model on image-sized widths. *)

From Stdlib Require Import QArith Qminmax Qround Lqa ZArith Lia Ascii String SpecFloat.
From stdpp Require Import base option list strings gmap pretty.

Local Open Scope string_scope.

(** ** JavaScript values *)

Module JS.

(** [!!s] for a string that may be [undefined]: the empty string and
    [undefined] are falsy. *)
Definition truthy (v : option string) : bool :=
  match v with
  | Some s => negb (String.eqb s "")
  | None => false
  end.

(** [a || b] on strings that may be [undefined]. *)
Definition or (a b : option string) : option string :=
  if truthy a then a else b.

(** [a || d] where the default [d] is a string literal. *)
Definition or_else (a : option string) (d : string) : string :=
  match a with
  | Some s => if String.eqb s "" then d else s
  | None => d
  end.

Definition lower (c : ascii) : ascii :=
  let n := nat_of_ascii c in
  if ((65 <=? n)%nat && (n <=? 90)%nat)%bool then ascii_of_nat (n + 32) else c.

(** [s.toLowerCase()] on ASCII text. *)
Fixpoint toLowerCase (s : string) : string :=
  match s with
  | String c r => String (lower c) (toLowerCase r)
  | EmptyString => EmptyString
  end.

(** A completion of a call: a value, or a thrown [Error] with its message. *)
Inductive completion (A : Type) : Type :=
| Normal (a : A)
| Throw (message : string).
Global Arguments Normal {A} a.
Global Arguments Throw {A} message.

(** The result of [parseInt]. *)
Inductive int : Type :=
| NaN
| Int (z : Z).

Definition isNaN (n : int) : bool :=
  match n with NaN => true | Int _ => false end.

(** [n <= 0]; every comparison with [NaN] is false. *)
Definition le0 (n : int) : bool :=
  match n with NaN => false | Int z => (z <=? 0)%Z end.

(** [!n]: [NaN] and [0] are falsy. *)
Definition falsy (n : int) : bool :=
  match n with NaN => true | Int z => (z =? 0)%Z end.

(** The white space [parseInt] skips, among the code units below 256: tab,
    line feed, vertical tab, form feed, carriage return, space and the
    no-break space. *)
Definition is_space (c : ascii) : bool :=
  let n := nat_of_ascii c in
  (n =? 32)%nat || ((9 <=? n)%nat && (n <=? 13)%nat) || (n =? 160)%nat.

Definition digit (c : ascii) : option Z :=
  let n := nat_of_ascii c in
  if ((48 <=? n)%nat && (n <=? 57)%nat)%bool then Some (Z.of_nat (n - 48)) else None.

Fixpoint skip_spaces (s : string) : string :=
  match s with
  | String c r => if is_space c then skip_spaces r else s
  | EmptyString => s
  end.

(** The longest prefix of decimal digits, read left to right. *)
Fixpoint digits (acc : option Z) (s : string) : option Z :=
  match s with
  | String c r =>
      match digit c with
      | Some d => digits (Some (10 * default 0%Z acc + d)%Z) r
      | None => acc
      end
  | EmptyString => acc
  end.

(** [parseInt(v, 10)]: leading white space, an optional sign, then the
    digits; [NaN] when no digit follows ([undefined] reads as the string
    "undefined").  The result is the integer the digits denote; it is the
    number the code obtains as long as it stays below 2^53 in absolute
    value, beyond which the code has the nearest double instead. *)
Definition parseInt (v : option string) : int :=
  match v with
  | None => NaN
  | Some s =>
      match skip_spaces s with
      | String "-" r => match digits None r with Some z => Int (- z) | None => NaN end
      | String "+" r => match digits None r with Some z => Int z | None => NaN end
      | r => match digits None r with Some z => Int z | None => NaN end
      end
  end.

(** [hay.includes(needle)]. *)
Definition includes (hay needle : string) : bool :=
  match String.index 0 needle hay with
  | Some _ => true
  | None => false
  end.

(** [a < b] on numbers. *)
Definition ltb (a b : Q) : bool := negb (Qle_bool b a).

(** [Math.max(a, b)]. *)
Definition Math_max (a b : Q) : Q := if ltb a b then b else a.

End JS.

(** ** The overlay markup *)

Module Svg.

Record Rgba : Type := { red : Z; green : Z; blue : Z; alpha : Q }.

(** The [transform] attribute of a [<text>] element. *)
Inductive Transform : Type :=
| NoTransform
| Rotate (angle : Q)
| RotateAbout (angle cx cy : Q).

Record TextElement : Type := {
  x : Q;
  y : Q;
  font_size : Q;
  font_family : string;
  fill : Rgba;
  transform : Transform;
  text : string
}.

(** [<svg width height xmlns> ... ]: the header and the chunks appended
    so far. *)
Record SvgContent : Type := {
  svg_width : Q;
  svg_height : Q;
  xmlns : string;
  elements : list TextElement
}.

(** [svgContent += <text ...>]. *)
Definition append (svg : SvgContent) (e : TextElement) : SvgContent :=
  {| svg_width := svg_width svg; svg_height := svg_height svg;
     xmlns := xmlns svg; elements := elements svg ++ [e] |}.

Definition rotationDegrees (e : TextElement) : Q :=
  match transform e with
  | NoTransform => 0
  | Rotate a => a
  | RotateAbout a _ _ => a
  end.

Definition opacity (e : TextElement) : Q := alpha (fill e).

End Svg.

(** ** The layout generator, [createWatermarkSVG], in exact arithmetic

    The loop variable, its bound and its step are rationals here: the
    additions [x += step] are exact.  The code accumulates doubles; the
    generator with that arithmetic is [Watermark64] below. *)

Module Watermark.
Import JS Svg.
Local Open Scope Q_scope.

(** Computations of the generator: they read the cursor of the random
    source, may run out of fuel ([None]) and may throw. *)
Definition M (A : Type) : Type := nat -> option (completion A * nat).

Definition ret {A} (a : A) : M A := fun c => Some (Normal a, c).

Definition throw {A} (message : string) : M A := fun c => Some (Throw message, c).

Definition bind {A B} (m : M A) (k : A -> M B) : M B :=
  fun c =>
    match m c with
    | Some (Normal a, c') => k a c'
    | Some (Throw e, c') => Some (Throw e, c')
    | None => None
    end.

Definition out_of_fuel {A} : M A := fun _ => None.

Notation "'let*' x ':=' m 'in' k" := (bind m (fun x => k))
  (at level 10, x name, m at level 100, k at level 200).

(** [Math.random()]: the next draw of the stream. *)
Definition Math_random (rng : nat -> Q) : M Q :=
  fun c => Some (Normal (rng c), S c).

(** [for (let x = x0; x < hi; x += step) body]. *)
Fixpoint for_lt {St : Type} (fuel : nat) (x hi step : Q)
    (body : Q -> St -> M St) (s : St) : M St :=
  match fuel with
  | O => out_of_fuel
  | S fuel' =>
      if ltb x hi
      then let* s' := body x s in for_lt fuel' (x + step) hi step body s'
      else ret s
  end.

Definition white (a : Q) : Rgba :=
  {| red := 255; green := 255; blue := 255; alpha := a |}.

Definition text_element (x y fontSize : Q) (t : Transform) (txt : string) : TextElement :=
  {| Svg.x := x; Svg.y := y; font_size := fontSize; font_family := "Arial";
     fill := white (3 # 10); transform := t; text := txt |}.

Definition fontSize (width : Q) : Q := Math_max (width / 20) 24.

Definition header (width height : Q) : SvgContent :=
  {| svg_width := width; svg_height := height;
     xmlns := "http://www.w3.org/2000/svg"; elements := [] |}.

Definition createWatermarkSVG (rng : nat -> Q) (fuel : nat)
    (rawWatermarkText : string) (width height : Q) (style : string) : M SvgContent :=
  let fontSize := fontSize width in
  let svgContent := header width height in
  if String.eqb style "diagonal" then
    let diagonalSpacing := fontSize * 3 in
    for_lt fuel (- height) (height * 2) diagonalSpacing (fun y svg =>
      for_lt fuel (- width) (width * 2) diagonalSpacing (fun x svg =>
        ret (append svg (text_element x y fontSize (Rotate (-30)) rawWatermarkText)))
        svg) svgContent
  else if String.eqb style "grid" then
    let gridSpacingX := width / 5 in
    let gridSpacingY := height / 5 in
    for_lt fuel 0 height gridSpacingY (fun y svg =>
      for_lt fuel 0 width gridSpacingX (fun x svg =>
        ret (append svg (text_element x y fontSize NoTransform rawWatermarkText)))
        svg) svgContent
  else if String.eqb style "scattered" then
    let numWatermarks := 50 in
    for_lt fuel 0 numWatermarks 1 (fun i svg =>
      let* r1 := Math_random rng in
      let x := r1 * width in
      let* r2 := Math_random rng in
      let y := r2 * height in
      let* r3 := Math_random rng in
      let rotation := r3 * 360 in
      ret (append svg (text_element x y fontSize (RotateAbout rotation x y) rawWatermarkText)))
      svgContent
  else
    throw "Invalid watermark style".

End Watermark.

(** ** Requests, responses and the environment of a request *)

Module Express.
Import JS Svg.

(** [req.file], as multer fills it in. *)
Record File : Type := {
  fieldname : string;
  originalname : string;
  filename : string;
  path : string;
  size : Z;
  mimetype : string
}.

Record Request : Type := {
  query : gmap string string;
  body : gmap string string;
  file : option File
}.

(** What [res.send] and [res.json] are given: a text, or an object whose
    fields are all strings in these handlers. *)
Inductive Payload : Type :=
| Text (s : string)
| Json (fields : list (string * string)).

Record Response : Type := { status : Z; payload : Payload }.

Record Metadata : Type := { width : Z; height : Z }.

(** One sharp pipeline, up to its [toFile]. *)
Inductive Operation : Type :=
| Resize (width height : int)
| Extract (width height left top : int)
| Grayscale
| Blur (sigma : Z)
| Composite (overlay : SvgContent).

Record Env : Type := {
  cwd : string;
  now : Z;
  rng : nat -> Q;
  fuel : nat;
  sharp_metadata : string -> completion Metadata;
  sharp_toFile : string -> Operation -> string -> completion unit
}.

(** [Unlinked p]: [unlink] was called on [p] and removed it;
    [UnlinkFailed p]: it was called and failed, which is only logged. *)
Inductive Event : Type :=
| Unlinked (p : string)
| UnlinkFailed (p : string)
| Written (p : string)
| Responded (r : Response).

(** The files on disk and what has happened so far. *)
Record World : Type := { files : gset string; trace : list Event }.

Definition start (fs : gset string) : World := {| files := fs; trace := [] |}.

Definition emit (e : Event) (w : World) : World :=
  {| files := files w; trace := trace w ++ [e] |}.

(** [res.status(code).send(..)] and [res.status(code).json(..)]. *)
Definition respond (code : Z) (p : Payload) (w : World) : World :=
  emit (Responded {| status := code; payload := p |}) w.

(** A pipeline that reached [toFile] has written its output. *)
Definition written (p : string) (w : World) : World :=
  emit (Written p) {| files := files w ∪ {[p]}; trace := trace w |}.

(** [path.resolve('./src/images/' + name)] for a name without separators. *)
Definition resolve (env : Env) (name : string) : string :=
  cwd env +:+ "/src/images/" +:+ name.

(** [req.query[key] || req.body[key]]. *)
Definition either (req : Request) (key : string) : option string :=
  JS.or (query req !! key) (body req !! key).

Definition responses (w : World) : list Response :=
  omap (fun e => match e with Responded r => Some r | _ => None end) (trace w).

End Express.

(** ** The handlers *)

Module Controller.
Import JS Svg Watermark Express.

(** [fs.promises.unlink] in a [try]; a failure is logged and swallowed. *)
Definition deleteFileFromServer (filePath : string) (w : World) : World :=
  if decide (filePath ∈ files w)
  then emit (Unlinked filePath) {| files := files w ∖ {[filePath]}; trace := trace w |}
  else emit (UnlinkFailed filePath) w.

Definition resizeImage (env : Env) (req : Request) (fs : gset string) : World :=
  let width := parseInt (query req !! "width") in
  let height := parseInt (query req !! "height") in
  let w := start fs in
  match file req with
  | None => respond 400 (Text "No file uploaded") w
  | Some f =>
      if isNaN width || isNaN height || le0 width || le0 height then
        respond 400
          (Json [("message", "Please specify valid positive values for width and height.")])
          (deleteFileFromServer (path f) w)
      else if falsy width && falsy height then
        respond 400 (Json [("message", "The width and height parameters are required")])
          (deleteFileFromServer (path f) w)
      else
        let newFilePath := resolve env ("resized-" +:+ filename f) in
        match sharp_toFile env (path f) (Resize width height) newFilePath with
        | Normal _ =>
            respond 200 (Json [("message", "Image resized successfully!"); ("path", newFilePath)])
              (deleteFileFromServer (path f) (written newFilePath w))
        | Throw _ => respond 500 (Text "Error processing image.") w
        end
  end.

(** The [catch] block calls [deleteFileFromServer] without awaiting it: the
    unlink is issued before the response is sent. *)
Definition cropImage (env : Env) (req : Request) (fs : gset string) : World :=
  let cropX := parseInt (either req "cropX") in
  let cropY := parseInt (either req "cropY") in
  let cropWidth := parseInt (either req "cropWidth") in
  let cropHeight := parseInt (either req "cropHeight") in
  let w := start fs in
  match file req with
  | None => respond 400 (Text "No file uploaded") w
  | Some f =>
      if isNaN cropWidth || isNaN cropHeight || le0 cropWidth || le0 cropHeight then
        respond 400
          (Json [("message", "Please specify valid positive values for cropWidth and cropHeight.")])
          (deleteFileFromServer (path f) w)
      else
        let newFilePath := resolve env ("cropped-" +:+ filename f) in
        match sharp_toFile env (path f) (Extract cropWidth cropHeight cropX cropY) newFilePath with
        | Normal _ =>
            respond 200 (Json [("message", "Image cropped successfully!"); ("path", newFilePath)])
              (deleteFileFromServer (path f) (written newFilePath w))
        | Throw message =>
            if includes message "extract_area: bad extract area" then
              respond 400
                (Text "Invalid crop parameters. Please check the coordinates and dimensions.")
                (deleteFileFromServer (path f) w)
            else
              respond 500 (Text "Error processing image.") (deleteFileFromServer (path f) w)
        end
  end.

Definition filterImage (env : Env) (req : Request) (fs : gset string) : World :=
  let w := start fs in
  match file req with
  | None => respond 400 (Text "No file uploaded") w
  | Some f =>
      let filter := either req "filter" in
      if negb (truthy filter) then
        respond 400 (Text "Please specify a filter (grayscale or blur)")
          (deleteFileFromServer (path f) w)
      else
        let filter := default "" filter in
        let failed :=
          respond 500 (Text "Error processing image.") (deleteFileFromServer (path f) w) in
        match sharp_metadata env (path f) with
        | Throw _ => failed
        | Normal metadata =>
            let outputPath := resolve env ("filtered-" +:+ originalname f) in
            let save processedImage :=
              match sharp_toFile env (path f) processedImage outputPath with
              | Throw _ => failed
              | Normal _ =>
                  respond 200
                    (Json [("message", "Image filtered successfully!");
                           ("path", outputPath); ("filter", filter)])
                    (deleteFileFromServer (path f) (written outputPath w))
              end in
            let lowered := toLowerCase filter in
            if String.eqb lowered "grayscale" then save Grayscale
            else if String.eqb lowered "blur" then save (Blur 20)
            else
              respond 400
                (Json [("message", "Invalid filter. Supported filters are grayscale and blur.")])
                (deleteFileFromServer (path f) w)
        end
  end.

(** The text and the style a watermark request asks for. *)
Definition rawWatermarkText (req : Request) : string :=
  or_else (either req "watermark") "Watermark".

Definition watermarkStyle (req : Request) : string :=
  or_else (query req !! "style") "diagonal".

(** [None]: the layout generator did not finish within the fuel. *)
Definition waterMarkImage (env : Env) (req : Request) (fs : gset string) : option World :=
  let w := start fs in
  match file req with
  | None => Some (respond 400 (Json [("error", "No file uploaded")]) w)
  | Some f =>
      if negb (truthy (query req !! "watermark")) && negb (truthy (body req !! "watermark")) then
        Some (respond 400 (Json [("message", "Watermark text is required")])
                (deleteFileFromServer (path f) w))
      else
        let rawWatermarkText := rawWatermarkText req in
        let watermarkStyle := watermarkStyle req in
        let failed details :=
          respond 500 (Json [("error", "Error processing image"); ("details", details)])
            (deleteFileFromServer (path f) w) in
        match sharp_metadata env (path f) with
        | Throw message => Some (failed message)
        | Normal metadata =>
            let outputFilename :=
              "watermarked-" +:+ pretty (now env) +:+ "-" +:+ originalname f in
            let outputPath := resolve env outputFilename in
            match createWatermarkSVG (rng env) (fuel env) rawWatermarkText
                    (inject_Z (width metadata)) (inject_Z (height metadata))
                    watermarkStyle 0%nat with
            | None => None
            | Some (Throw message, _) => Some (failed message)
            | Some (Normal svg, _) =>
                match sharp_toFile env (path f) (Composite svg) outputPath with
                | Throw message => Some (failed message)
                | Normal _ =>
                    Some (respond 200
                            (Json [("message", "Image watermarked successfully!");
                                   ("path", outputPath); ("filename", outputFilename);
                                   ("style", watermarkStyle)])
                            (deleteFileFromServer (path f) (written outputPath w)))
                end
            end
        end
  end.

End Controller.

(** ** The reference enumeration of the tilings

    The layouts as the specification words them: anchors in closed form,
    [lo + k * step] for every [k] that keeps the anchor below [hi]. *)

Module Reference.
Import Svg.
Local Open Scope Q_scope.

(** How many anchors [lo, lo + step, ...] lie below [hi]. *)
Definition count (lo hi step : Q) : nat := Z.to_nat (Qceiling ((hi - lo) / step)).

Definition anchor (lo step : Q) (k : nat) : Q := lo + inject_Z (Z.of_nat k) * step.

(** From [lo] up to, and excluding, [hi] in steps of [step]. *)
Definition range (lo hi step : Q) : list Q :=
  map (anchor lo step) (seq 0 (count lo hi step)).

Definition element (fontSize rotation : Q) (txt : string) (x y : Q) : TextElement :=
  {| x := x; y := y; font_size := fontSize; font_family := "Arial";
     fill := {| red := 255; green := 255; blue := 255; alpha := 3 # 10 |};
     transform := Rotate rotation; text := txt |}.

(** Outer loop [y], inner loop [x]. *)
Definition diagonal (width height : Q) (txt : string) : list TextElement :=
  let fontSize := Qmax (width / 20) 24 in
  let spacing := fontSize * 3 in
  flat_map (fun y => map (fun x => element fontSize (-30) txt x y)
                       (range (- width) (2 * width) spacing))
           (range (- height) (2 * height) spacing).

(** Two elements that render alike: equal attributes, numbers compared
    as rationals. *)
Definition same_transform (s t : Transform) : Prop :=
  match s, t with
  | NoTransform, NoTransform => True
  | Rotate a, Rotate b => a == b
  | RotateAbout a x y, RotateAbout b u v => a == b /\ x == u /\ y == v
  | _, _ => False
  end.

Definition same_element (e f : TextElement) : Prop :=
  x e == x f /\ y e == y f /\ font_size e == font_size f /\
  font_family e = font_family f /\ fill e = fill f /\
  same_transform (transform e) (transform f) /\ text e = text f.

End Reference.

(** ** Loops unrolled

    What a terminating [for] loop computes: its body run over the values
    the loop variable takes, each obtained from the previous one by adding
    the step. *)

Module Unrolled.
Import JS Svg Watermark.
Local Open Scope Q_scope.

Fixpoint steps (x step : Q) (n : nat) : list Q :=
  match n with
  | O => []
  | S n' => x :: steps (x + step) step n'
  end.

Fixpoint for_each {St : Type} (xs : list Q) (body : Q -> St -> M St) (s : St) : M St :=
  match xs with
  | [] => ret s
  | x :: xs' => bind (body x s) (for_each xs' body)
  end.

Definition append_all (svg : SvgContent) (es : list TextElement) : SvgContent :=
  {| svg_width := svg_width svg; svg_height := svg_height svg;
     xmlns := xmlns svg; elements := elements svg ++ es |}.

End Unrolled.

(** ** The loop variable in double precision

    The header of a [for] loop replayed with the IEEE binary64 [+], [/] and
    [<] that the JavaScript engine applies, to compare the number of
    iterations with the one found in exact arithmetic. *)

Module Binary64.

Definition prec : Z := 53.
Definition emax : Z := 1024.

Definition of_Z (z : Z) : spec_float := binary_normalize prec emax z 0 false.

(** The values [x] takes in [for (let x = x0; x < hi; x += step)]. *)
Fixpoint loop_values (fuel : nat) (x hi step : spec_float) : option (list spec_float) :=
  match fuel with
  | O => None
  | S fuel' =>
      if SFltb x hi
      then option_map (cons x) (loop_values fuel' (SFadd prec emax x step) hi step)
      else Some []
  end.

(** [for (let x = 0; x < width; x += gridSpacingX)] with
    [gridSpacingX = width / 5]. *)
Definition grid_axis (width : Z) : option (list spec_float) :=
  loop_values 10 (of_Z 0) (of_Z width) (SFdiv prec emax (of_Z width) (of_Z 5)).

Definition five_steps (width : nat) : bool :=
  match grid_axis (Z.of_nat width) with
  | Some xs => (length xs =? 5)%nat
  | None => false
  end.

End Binary64.

(** ** The layout generator in double precision

    [createWatermarkSVG] once more, with every number an IEEE binary64
    value and every [+], [*], [/] and [<] the rounded operation of the
    JavaScript engine.  Where rounding changes what is drawn (the
    accumulated anchors of the diagonal tiling) this is the embedding the
    statements are about. *)

Module Watermark64.
Import JS Svg Watermark Binary64.

Definition add (a b : spec_float) : spec_float := SFadd prec emax a b.
Definition mul (a b : spec_float) : spec_float := SFmul prec emax a b.
Definition div (a b : spec_float) : spec_float := SFdiv prec emax a b.

Definition is_nan (a : spec_float) : bool :=
  match a with S754_nan => true | _ => false end.

(** [Math.max(a, b)] on doubles. *)
Definition Math_max64 (a b : spec_float) : spec_float :=
  if is_nan a || is_nan b then S754_nan else if SFltb a b then b else a.

Inductive Transform64 : Type :=
| NoTransform64
| Rotate64 (angle : spec_float)
| RotateAbout64 (angle cx cy : spec_float).

Record TextElement64 : Type := {
  x64 : spec_float;
  y64 : spec_float;
  font_size64 : spec_float;
  font_family64 : string;
  fill64 : Rgba;
  transform64 : Transform64;
  text64 : string
}.

Record SvgContent64 : Type := {
  svg_width64 : spec_float;
  svg_height64 : spec_float;
  xmlns64 : string;
  elements64 : list TextElement64
}.

Definition append64 (svg : SvgContent64) (e : TextElement64) : SvgContent64 :=
  {| svg_width64 := svg_width64 svg; svg_height64 := svg_height64 svg;
     xmlns64 := xmlns64 svg; elements64 := elements64 svg ++ [e] |}.

Definition rotationDegrees64 (e : TextElement64) : spec_float :=
  match transform64 e with
  | NoTransform64 => of_Z 0
  | Rotate64 a => a
  | RotateAbout64 a _ _ => a
  end.

Definition opacity64 (e : TextElement64) : Q := alpha (fill64 e).

Definition Math_random64 (rng : nat -> spec_float) : M spec_float :=
  fun c => Some (Normal (rng c), S c).

(** [for (let x = x0; x < hi; x += step) body]. *)
Fixpoint for_lt64 {St : Type} (fuel : nat) (x hi step : spec_float)
    (body : spec_float -> St -> M St) (s : St) : M St :=
  match fuel with
  | O => out_of_fuel
  | S fuel' =>
      if SFltb x hi
      then bind (body x s) (fun s' => for_lt64 fuel' (add x step) hi step body s')
      else ret s
  end.

Definition text_element64 (x y fontSize : spec_float) (t : Transform64) (txt : string)
    : TextElement64 :=
  {| x64 := x; y64 := y; font_size64 := fontSize; font_family64 := "Arial";
     fill64 := white (3 # 10); transform64 := t; text64 := txt |}.

Definition fontSize64 (width : spec_float) : spec_float :=
  Math_max64 (div width (of_Z 20)) (of_Z 24).

Definition header64 (width height : spec_float) : SvgContent64 :=
  {| svg_width64 := width; svg_height64 := height;
     xmlns64 := "http://www.w3.org/2000/svg"; elements64 := [] |}.

Definition createWatermarkSVG64 (rng : nat -> spec_float) (fuel : nat)
    (rawWatermarkText : string) (width height : spec_float) (style : string)
    : M SvgContent64 :=
  let fontSize := fontSize64 width in
  let svgContent := header64 width height in
  if String.eqb style "diagonal" then
    let diagonalSpacing := mul fontSize (of_Z 3) in
    for_lt64 fuel (SFopp height) (mul height (of_Z 2)) diagonalSpacing (fun y svg =>
      for_lt64 fuel (SFopp width) (mul width (of_Z 2)) diagonalSpacing (fun x svg =>
        ret (append64 svg
               (text_element64 x y fontSize (Rotate64 (of_Z (-30))) rawWatermarkText)))
        svg) svgContent
  else if String.eqb style "grid" then
    let gridSpacingX := div width (of_Z 5) in
    let gridSpacingY := div height (of_Z 5) in
    for_lt64 fuel (of_Z 0) height gridSpacingY (fun y svg =>
      for_lt64 fuel (of_Z 0) width gridSpacingX (fun x svg =>
        ret (append64 svg (text_element64 x y fontSize NoTransform64 rawWatermarkText)))
        svg) svgContent
  else if String.eqb style "scattered" then
    let numWatermarks := of_Z 50 in
    for_lt64 fuel (of_Z 0) numWatermarks (of_Z 1) (fun i svg =>
      bind (Math_random64 rng) (fun r1 =>
      let x := mul r1 width in
      bind (Math_random64 rng) (fun r2 =>
      let y := mul r2 height in
      bind (Math_random64 rng) (fun r3 =>
      let rotation := mul r3 (of_Z 360) in
      ret (append64 svg
             (text_element64 x y fontSize (RotateAbout64 rotation x y) rawWatermarkText))))))
      svgContent
  else
    throw "Invalid watermark style".

End Watermark64.

(** ** The diagonal tiling as an enumeration, in double precision

    The anchors as the specification words them, "from [lo] up to, and
    excluding, [hi] in steps of [step]", the steps being the additions the
    code makes: of the values [lo], [lo + step], [(lo + step) + step], ...
    those before the first that is not below [hi]. *)

Module Reference64.
Import Svg Watermark Binary64 Watermark64.

(** The first [n] values of the accumulation. *)
Fixpoint accumulate (n : nat) (x step : spec_float) : list spec_float :=
  match n with
  | O => []
  | S n' => x :: accumulate n' (add x step) step
  end.

(** The longest prefix of [vs] whose values are below [hi]. *)
Fixpoint below (hi : spec_float) (vs : list spec_float) : list spec_float :=
  match vs with
  | [] => []
  | v :: vs' => if SFltb v hi then v :: below hi vs' else []
  end.

(** The range, looked for among the first [n] values. *)
Definition range (n : nat) (lo hi step : spec_float) : list spec_float :=
  below hi (accumulate n lo step).

(** Whether the accumulation leaves the range within its first [n]
    values. *)
Definition ends_within (n : nat) (lo hi step : spec_float) : bool :=
  (length (range n lo hi step) <? n)%nat.

Definition element (fontSize : spec_float) (txt : string) (x y : spec_float)
    : TextElement64 :=
  {| x64 := x; y64 := y; font_size64 := fontSize; font_family64 := "Arial";
     fill64 := {| red := 255; green := 255; blue := 255; alpha := 3 # 10 |};
     transform64 := Rotate64 (of_Z (-30)); text64 := txt |}.

Definition spacing (width : spec_float) : spec_float :=
  mul (Math_max64 (div width (of_Z 20)) (of_Z 24)) (of_Z 3).

Definition columns (n : nat) (width : spec_float) : list spec_float :=
  range n (SFopp width) (mul (of_Z 2) width) (spacing width).

Definition rows (n : nat) (width height : spec_float) : list spec_float :=
  range n (SFopp height) (mul (of_Z 2) height) (spacing width).

(** Outer loop [y], inner loop [x]. *)
Definition diagonal (n : nat) (width height : spec_float) (txt : string)
    : list TextElement64 :=
  flat_map (fun y => map (fun x => element (Math_max64 (div width (of_Z 20)) (of_Z 24)) txt x y)
                       (columns n width))
           (rows n width height).

End Reference64.

(** Loops over doubles, unrolled. *)

Module Unrolled64.
Import JS Watermark Watermark64.

Fixpoint for_each64 {St : Type} (xs : list spec_float)
    (body : spec_float -> St -> M St) (s : St) : M St :=
  match xs with
  | [] => ret s
  | x :: xs' => bind (body x s) (for_each64 xs' body)
  end.

Definition append_all64 (svg : SvgContent64) (es : list TextElement64) : SvgContent64 :=
  {| svg_width64 := svg_width64 svg; svg_height64 := svg_height64 svg;
     xmlns64 := xmlns64 svg; elements64 := elements64 svg ++ es |}.

End Unrolled64.

(** ** The grid and scattered layouts, and the loop checks, in double
    precision *)

Module Layout64.
Import Svg Watermark Binary64 Watermark64 Reference64.

Definition grid_columns (n : nat) (width : spec_float) : list spec_float :=
  range n (of_Z 0) width (div width (of_Z 5)).

Definition grid_rows (n : nat) (height : spec_float) : list spec_float :=
  range n (of_Z 0) height (div height (of_Z 5)).

Definition grid_elements64 (n : nat) (txt : string) (width height : spec_float)
    : list TextElement64 :=
  flat_map (fun y => map (fun x => text_element64 x y (fontSize64 width) NoTransform64 txt)
                       (grid_columns n width))
           (grid_rows n height).

(** The anchors of the grid, row by row: on each axis the first five values
    of the accumulation 0, 0 + s, (0 + s) + s, ... *)
Definition grid_anchors64 (width height : spec_float) : list (spec_float * spec_float) :=
  flat_map (fun y => map (fun x => (x, y)) (accumulate 5 (of_Z 0) (div width (of_Z 5))))
           (accumulate 5 (of_Z 0) (div height (of_Z 5))).

(** The element drawn when the cursor of the random source is at [c]. *)
Definition scattered_element64 (rng : nat -> spec_float) (txt : string)
    (width height : spec_float) (c : nat) : TextElement64 :=
  let x := mul (rng c) width in
  let y := mul (rng (S c)) height in
  text_element64 x y (fontSize64 width)
    (RotateAbout64 (mul (rng (S (S c))) (of_Z 360)) x y) txt.

Definition scattered_elements64 (rng : nat -> spec_float) (txt : string)
    (width height : spec_float) (c : nat) : list TextElement64 :=
  map (fun i => scattered_element64 rng txt width height (c + 3 * i)) (seq 0 50).

(** Whether each of the four loops over the width and the height leaves its
    range within [n] values. *)
Definition loops_end (n : nat) (width height : spec_float) : bool :=
  ends_within n (SFopp width) (mul (of_Z 2) width) (spacing width)
  && ends_within n (SFopp height) (mul (of_Z 2) height) (spacing width)
  && ends_within n (of_Z 0) width (div width (of_Z 5))
  && ends_within n (of_Z 0) height (div height (of_Z 5)).

(** [lo <= v < hi]. *)
Definition within (lo hi v : spec_float) : bool := SFleb lo v && SFltb v hi.

(** One axis of the grid of an image [k] pixels wide: the loop ends, makes
    five iterations and stays on the canvas. *)
Definition grid_axis_ok (k : nat) : bool :=
  let w := of_Z (Z.of_nat k) in
  ends_within 6 (of_Z 0) w (div w (of_Z 5))
  && (length (grid_columns 6 w) =? 5)%nat
  && forallb (within (of_Z 0) w) (grid_columns 6 w).

(** One row of the diagonal tiling of an image [k] pixels wide: the loop
    ends, with ceil(k / 24) anchors below 480 pixels and 20 or 21 from
    there on. *)
Definition diagonal_axis_ok (k : nat) : bool :=
  let w := of_Z (Z.of_nat k) in
  let columns := length (columns 22 w) in
  ends_within 22 (SFopp w) (mul (of_Z 2) w) (spacing w)
  && (if (k <? 480)%nat then (columns =? (k + 23) / 24)%nat
      else (columns =? 20)%nat || (columns =? 21)%nat).

End Layout64.

(** The layouts the three styles return, in terms of the unrolled loops. *)

Module Layout.
Import JS Svg Watermark Unrolled.
Local Open Scope Q_scope.


Definition diagonal_elements (txt : string) (width height : Q) : list TextElement :=
  let s := fontSize width * 3 in
  flat_map (fun y => map (fun x => text_element x y (fontSize width) (Rotate (-30)) txt)
                       (steps (- width) s (Reference.count (- width) (width * 2) s)))
           (steps (- height) s (Reference.count (- height) (height * 2) s)).

(** The element drawn when the cursor of the random source is at [c]. *)
Definition scattered_element (rng : nat -> Q) (txt : string) (width height : Q)
    (c : nat) : TextElement :=
  let x := rng c * width in
  let y := rng (S c) * height in
  text_element x y (fontSize width) (RotateAbout (rng (S (S c)) * 360) x y) txt.

Definition scattered_elements (rng : nat -> Q) (txt : string) (width height : Q)
    (c : nat) : list TextElement :=
  map (fun i => scattered_element rng txt width height (c + 3 * i)) (seq 0 50).

End Layout.

Import JS Svg Watermark Express Controller Unrolled Layout.

(** The number of elements of a layout that was returned. *)
Definition run_length (r : option (completion SvgContent * nat)) : option nat :=
  match r with
  | Some (Normal svg, _) => Some (length (elements svg))
  | _ => None
  end.

(** ** Sample requests *)

Definition demo_file : File :=
  {| fieldname := "image"; originalname := "cat.jpg"; filename := "image-1700000000000-42.jpg";
     path := "/srv/src/images/image-1700000000000-42.jpg"; size := 1000; mimetype := "image/jpeg" |}.

Definition demo_env : Env :=
  {| cwd := "/srv"; now := 1700000000123; rng := fun n => (Z.of_nat (n mod 10) # 10);
     fuel := 100;
     sharp_metadata := fun _ => Normal {| width := 640; height := 480 |};
     sharp_toFile := fun _ _ _ => Normal tt |}.

(** A second upload of a file with the same original name, a little later. *)
Definition later_file : File :=
  {| fieldname := "image"; originalname := "cat.jpg"; filename := "image-1700000005000-7.jpg";
     path := "/srv/src/images/image-1700000005000-7.jpg"; size := 2000; mimetype := "image/jpeg" |}.

Definition later_env : Env :=
  {| cwd := "/srv"; now := 1700000005042; rng := rng demo_env; fuel := 100;
     sharp_metadata := sharp_metadata demo_env; sharp_toFile := sharp_toFile demo_env |}.

(** The library rejects every extraction. *)
Definition small_image_env : Env :=
  {| cwd := "/srv"; now := 1700000000123; rng := rng demo_env; fuel := 100;
     sharp_metadata := fun _ => Normal {| width := 50; height := 50 |};
     sharp_toFile := fun _ _ _ => Throw "extract_area: bad extract area" |}.

Definition crop_req : Request :=
  {| query := {[ "cropX" := "10"; "cropY" := "10"; "cropWidth" := "100"; "cropHeight" := "100" ]};
     body := ∅; file := Some demo_file |}.

Definition filter_req (f : File) (name : string) : Request :=
  {| query := {[ "filter" := name ]}; body := ∅; file := Some f |}.

(** A watermark request whose style comes in the body, or in the query. *)
Definition body_style_req : Request :=
  {| query := {[ "watermark" := "hi" ]}; body := {[ "style" := "grid" ]}; file := Some demo_file |}.

Definition query_style_req : Request :=
  {| query := {[ "watermark" := "hi"; "style" := "grid" ]}; body := ∅; file := Some demo_file |}.

Definition no_text_req : Request :=
  {| query := {[ "style" := "diagonal" ]}; body := ∅; file := Some demo_file |}.

(** A request with every dimension parameter set, for the upload [f]. *)
Definition sized_req (f : File) : Request :=
  {| query := {[ "width" := "100"; "height" := "80";
                 "cropWidth" := "50"; "cropHeight" := "40"; "cropX" := "0"; "cropY" := "0" ]};
     body := ∅; file := Some f |}.

(** A stream of draws in [0,1). *)
Definition alternating (n : nat) : Q := if Nat.even n then 1 # 4 else 3 # 4.

(** ** Uploads: the multer callbacks, the middleware and the routes *)

Module Upload.
Import JS Express Controller.

(** The suffix of [s] that starts at its last dot. *)
Fixpoint last_dot (s : string) : option string :=
  match s with
  | EmptyString => None
  | String c r =>
      match last_dot r with
      | Some e => Some e
      | None => if Ascii.eqb c "." then Some s else None
      end
  end.

(** [path.extname(name)] for a name without separators: from the last dot
    on, and empty when there is no dot after the first character or the
    name is "..". *)
Definition extname (name : string) : string :=
  match name with
  | EmptyString => ""
  | String _ r =>
      match last_dot r with
      | Some e => if String.eqb name ".." then "" else e
      | None => ""
      end
  end.

(** [/jpeg|jpg|png|gif/i.test(s)]. *)
Definition fileTypes_test (s : string) : bool :=
  let l := toLowerCase s in
  includes l "jpeg" || includes l "jpg" || includes l "png" || includes l "gif".

(** What multer knows of a file when it calls [fileFilter] and
    [filename]. *)
Record Incoming : Type := {
  in_fieldname : string;
  in_originalname : string;
  in_mimetype : string
}.

(** [fileFilter]: [Normal true] for [cb(null, true)], [Throw m] for
    [cb(new Error(m), false)]. *)
Definition fileFilter (file : Incoming) : completion bool :=
  let extname := fileTypes_test (toLowerCase (extname (in_originalname file))) in
  let mimetype := fileTypes_test (in_mimetype file) in
  if mimetype && extname then Normal true else Throw "Only images are allowed!".

(** [Math.round(q)] for [q >= 0]. *)
Definition Math_round (q : Q) : Z := Qfloor (q + (1 # 2)).

(** The [filename] callback of the disk storage, at clock [now] and with
    the draw [r] of [Math.random()]. *)
Definition storage_filename (now : Z) (r : Q) (file : Incoming) : string :=
  let uniqueSuffix := pretty now +:+ "-" +:+ pretty (Math_round (r * 1000000000)) in
  in_fieldname file +:+ "-" +:+ uniqueSuffix +:+ extname (in_originalname file).

(** The error multer hands to the callback of [upload]. *)
Inductive UploadError : Type :=
| MulterError (code message : string)
| OtherError (message : option string).

(** [uploadMiddleware]; the boolean tells whether [next()] was called. *)
Definition uploadMiddleware (err : option UploadError) (req : Request) (w : World)
    : World * bool :=
  match err with
  | Some (MulterError code message) =>
      if String.eqb code "LIMIT_FILE_SIZE" then
        (respond 400 (Json [("error", "File too large");
                            ("message", "File size should not exceed 5MB")]) w, false)
      else
        (respond 400 (Json [("error", "File upload error"); ("message", message)]) w, false)
  | Some (OtherError message) =>
      (respond 400 (Json [("error", "Upload error");
                          ("message", or_else message "Error uploading file")]) w, false)
  | None =>
      match file req with
      | None =>
          (respond 400 (Json [("error", "No file"); ("message", "Please upload an image")]) w,
           false)
      | Some _ => (w, true)
      end
  end.

Definition uploadImage (req : Request) (fs : gset string) : World :=
  let w := start fs in
  match file req with
  | None => respond 400 (Json [("error", "No file uploaded")]) w
  | Some f =>
      respond 200 (Json [("message", "Image uploaded successfully");
                         ("originalFilename", originalname f);
                         ("filename", filename f);
                         ("size", pretty (size f));
                         ("path", path f)]) w
  end.

(** [router.post(route, uploadMiddleware, handler)]. *)
Definition route (handler : Request -> gset string -> option World)
    (err : option UploadError) (req : Request) (fs : gset string) : option World :=
  let (w, next) := uploadMiddleware err req (start fs) in
  if next then handler req fs else Some w.

Definition uploadImage_route := route (fun req fs => Some (uploadImage req fs)).
Definition resizeImage_route (env : Env) := route (fun req fs => Some (resizeImage env req fs)).
Definition cropImage_route (env : Env) := route (fun req fs => Some (cropImage env req fs)).
Definition filterImage_route (env : Env) := route (fun req fs => Some (filterImage env req fs)).
Definition waterMarkImage_route (env : Env) := route (waterMarkImage env).

End Upload.

Import Upload.


(** The answers a handler gives when [req.file] is missing. *)
Definition no_file_answer (r : Response) : Prop :=
  r = {| status := 400; payload := Text "No file uploaded" |} \/
  r = {| status := 400; payload := Json [("error", "No file uploaded")] |}.

(** The directories [fs.mkdirSync(p, { recursive: true })] makes sure of:
    [p] and every ancestor of it, that is every non-empty prefix of [p]
    that stops before a separator. *)
Fixpoint ancestors_from (prefix s : string) : list string :=
  match s with
  | EmptyString => [prefix]
  | String c r =>
      (if Ascii.eqb c "/" && negb (String.eqb prefix "") then [prefix] else [])
      ++ ancestors_from (prefix +:+ String c "") r
  end.

Definition mkdir_recursive (p : string) (dirs : gset string) : gset string :=
  dirs ∪ list_to_set (ancestors_from "" p).

(** [ensureImagesDirectory], over the set of directories that exist;
    [path.resolve('./images')] is [cwd/images]. *)
Definition ensureImagesDirectory (cwd : string) (dirs : gset string) : gset string :=
  let imagesDir := cwd +:+ "/images" in
  if decide (imagesDir ∈ dirs) then dirs else mkdir_recursive imagesDir dirs.

(** The [destination] callback of the disk storage: the directories after
    it ran and the directory it hands to multer. *)
Definition storage_destination (cwd : string) (dirs : gset string) : gset string * string :=
  (ensureImagesDirectory cwd dirs, cwd +:+ "/src/images").

(** Whether the character [c] occurs in [s]. *)
Fixpoint occurs (c : ascii) (s : string) : bool :=
  match s with
  | EmptyString => false
  | String a r => Ascii.eqb a c || occurs c r
  end.

(** The same upload as [file], its name and MIME type in lower case. *)
Definition lowered (file : Incoming) : Incoming :=
  {| in_fieldname := in_fieldname file;
     in_originalname := toLowerCase (in_originalname file);
     in_mimetype := toLowerCase (in_mimetype file) |}.

(** An upload that arrives with its file on disk. *)
Definition demo_incoming : Incoming :=
  {| in_fieldname := "image"; in_originalname := "Cat.JPG"; in_mimetype := "image/jpeg" |}.


Definition known_style (style : string) : Prop :=
  style = "diagonal" \/ style = "grid" \/ style = "scattered".

(** ** Numbers and loops *)

Section Loops.
Local Open Scope Q_scope.

Lemma ltb_true (a b : Q) : ltb a b = true <-> a < b.
Proof.
  unfold ltb. rewrite negb_true_iff, <- not_true_iff_false, Qle_bool_iff.
  split; [apply Qnot_le_lt | apply Qlt_not_le].
Qed.

Lemma ltb_false (a b : Q) : ltb a b = false <-> b <= a.
Proof. unfold ltb. rewrite negb_false_iff. apply Qle_bool_iff. Qed.

Lemma Math_max_Qmax (a b : Q) : Math_max a b = Qmax a b.
Proof.
  unfold Math_max, Qmax, GenericMinMax.gmax.
  destruct (Qcompare a b) eqn:C, (ltb a b) eqn:E; try reflexivity.
  - apply ltb_true in E. apply Qeq_alt in C. lra.
  - apply Qlt_alt, ltb_true in C. congruence.
  - apply ltb_true in E. apply Qgt_alt in C. lra.
Qed.



Lemma Qceiling_unique (x : Q) (z : Z) :
  inject_Z (z - 1) < x -> x <= inject_Z z -> Qceiling x = z.
Proof.
  intros Hlo Hhi.
  pose proof (Qle_ceiling x) as Hc. pose proof (Qceiling_lt x) as Hl.
  assert (inject_Z (z - 1) < inject_Z (Qceiling x)) as H1 by lra.
  assert (inject_Z (Qceiling x - 1) < inject_Z z) as H2 by lra.
  rewrite <- Zlt_Qlt in H1, H2. lia.
Qed.

Lemma count_done (lo hi step : Q) :
  0 < step -> hi <= lo -> Reference.count lo hi step = O.
Proof.
  intros Hs Hle. unfold Reference.count.
  assert ((hi - lo) / step <= 0) as H.
  { apply Qle_shift_div_r; [assumption | lra]. }
  apply Qceiling_resp_le in H. change (Qceiling 0) with 0%Z in H. lia.
Qed.

Lemma count_step (lo hi step : Q) :
  0 < step -> lo < hi ->
  Reference.count lo hi step = S (Reference.count (lo + step) hi step).
Proof.
  intros Hs Hlt. unfold Reference.count.
  set (q := (hi - lo) / step).
  assert (0 < q) as Hq by (apply Qlt_shift_div_l; [assumption | lra]).
  assert ((hi - (lo + step)) / step == q - 1) as ->.
  { unfold q. field. lra. }
  pose proof (Qle_ceiling q) as Hc. pose proof (Qceiling_lt q) as Hl.
  assert (Qceiling (q - 1) = (Qceiling q - 1)%Z) as ->.
  { apply Qceiling_unique.
    - replace (Qceiling q - 1 - 1)%Z with (Qceiling q - 1 + -1)%Z by lia.
      rewrite inject_Z_plus. change (inject_Z (-1)) with (-1). lra.
    - replace (Qceiling q - 1)%Z with (Qceiling q + -1)%Z by lia.
      rewrite inject_Z_plus. change (inject_Z (-1)) with (-1). lra. }
  assert (0 < Qceiling q)%Z as Hpos.
  { rewrite Zlt_Qlt. change (inject_Z 0) with 0. lra. }
  lia.
Qed.

(** With fuel beyond the number of iterations, the loop is its unrolling. *)
Lemma for_lt_unroll {St : Type} (hi step : Q) (body : Q -> St -> M St) :
  0 < step ->
  forall (n fuel : nat) (lo : Q) (s : St) (c : nat),
    Reference.count lo hi step = n -> (n < fuel)%nat ->
    for_lt fuel lo hi step body s c = for_each (steps lo step n) body s c.
Proof.
  intros Hs. induction n as [| n IH]; intros fuel lo s c Hn Hf;
    (destruct fuel as [| fuel]; [lia |]); simpl; destruct (ltb lo hi) eqn:E.
  - apply ltb_true in E. rewrite (count_step _ _ _ Hs E) in Hn. discriminate.
  - reflexivity.
  - apply ltb_true in E. rewrite (count_step _ _ _ Hs E) in Hn.
    unfold bind. destruct (body lo s c) as [[[s' | e] c'] |]; try reflexivity.
    apply IH; [congruence | lia].
  - apply ltb_false in E. rewrite (count_done _ _ _ Hs E) in Hn. discriminate.
Qed.

Lemma append_all_nil (svg : SvgContent) : append_all svg [] = svg.
Proof. destruct svg. unfold append_all. simpl. now rewrite app_nil_r. Qed.

Lemma append_all_app (svg : SvgContent) (es fs : list TextElement) :
  append_all (append_all svg es) fs = append_all svg (es ++ fs).
Proof. unfold append_all. simpl. now rewrite app_assoc. Qed.


Lemma elements_from_header (width height : Q) (es : list TextElement) :
  elements (append_all (header width height) es) = es.
Proof. reflexivity. Qed.

Lemma steps_length (x step : Q) (n : nat) : length (steps x step n) = n.
Proof. revert x. induction n as [| n IH]; intros x; simpl; [| rewrite IH]; reflexivity. Qed.

(** The accumulated loop variable is the closed-form anchor. *)
Lemma steps_anchor (step : Q) (n : nat) :
  forall (lo x : Q) (k : nat),
    x == Reference.anchor lo step k ->
    Forall2 Qeq (steps x step n) (map (Reference.anchor lo step) (seq k n)).
Proof.
  induction n as [| n IH]; intros lo x k Hx; simpl; constructor; [assumption |].
  apply IH. unfold Reference.anchor in *. rewrite Hx, Nat2Z.inj_succ.
  unfold Z.succ. rewrite inject_Z_plus. change (inject_Z 1) with 1. ring.
Qed.

End Loops.

(** Select the branch of the [switch] on a literal style. *)
Ltac switch_style :=
  unfold createWatermarkSVG;
  repeat match goal with
         | |- context [String.eqb ?a ?b] =>
             let v := eval vm_compute in (String.eqb a b) in
             change (String.eqb a b) with v
         end;
  cbv iota zeta.

(** ** The deterministic tilings *)

Section Tilings.
Local Open Scope Q_scope.

Lemma flat_map_single {A B : Type} (f : A -> B) (xs : list A) :
  flat_map (fun x => [f x]) xs = map f xs.
Proof. induction xs as [| x xs IH]; simpl; [| rewrite IH]; reflexivity. Qed.





Lemma Forall2_tiling (R : TextElement -> TextElement -> Prop) (f g : Q -> Q -> TextElement) :
  (forall x x' y y', x == x' -> y == y' -> R (f x y) (g x' y')) ->
  forall xs xs' ys ys',
    Forall2 Qeq xs xs' -> Forall2 Qeq ys ys' ->
    Forall2 R (flat_map (fun y => map (fun x => f x y) xs) ys)
              (flat_map (fun y => map (fun x => g x y) xs') ys').
Proof.
  intros HR xs xs' ys ys' Hxs Hys.
  induction Hys as [| y y' ys ys' Hy _ IH]; simpl; [constructor |].
  apply Forall2_app; [| exact IH].
  clear IH. induction Hxs as [| x x' xs xs' Hx _ IH]; simpl; constructor; auto.
Qed.



End Tilings.

(** ** The scattered layout *)

Section Scattered.
Local Open Scope Q_scope.

(** A body that appends one element and takes three draws. *)
Lemma for_each_draws (e : nat -> TextElement) (body : Q -> SvgContent -> M SvgContent) :
  (forall x svg c, body x svg c = Some (Normal (append svg (e c)), S (S (S c)))) ->
  forall xs svg c,
    for_each xs body svg c
    = Some (Normal (append_all svg (map (fun i => e (c + 3 * i)%nat) (seq 0 (length xs)))),
            (c + 3 * length xs)%nat).
Proof.
  intros Hb. induction xs as [| x xs IH]; intros svg c; simpl for_each.
  - simpl. rewrite append_all_nil, Nat.add_0_r. reflexivity.
  - unfold bind. rewrite Hb, IH. simpl length. rewrite <- cons_seq, <- seq_shift.
    rewrite map_cons, map_map, Nat.add_0_r.
    change (append svg (e c)) with (append_all svg [e c]). rewrite append_all_app.
    simpl app.
    replace (c + 3 * S (length xs))%nat with (S (S (S c)) + 3 * length xs)%nat by lia.
    do 5 f_equal. apply map_ext. intros i. f_equal. lia.
Qed.

Lemma scattered_run (rng : nat -> Q) (fuel : nat) (txt : string) (width height : Q) (c : nat) :
  (50 < fuel)%nat ->
  createWatermarkSVG rng fuel txt width height "scattered" c
  = Some (Normal (append_all (header width height)
                    (scattered_elements rng txt width height c)), (c + 150)%nat).
Proof.
  intros Hf. switch_style.
  rewrite (for_lt_unroll 50 1 _ ltac:(lra) 50%nat) by (reflexivity || assumption).
  rewrite (for_each_draws (scattered_element rng txt width height)) by reflexivity.
  rewrite steps_length. reflexivity.
Qed.

Lemma draw_scaled (r bound : Q) : 0 <= r < 1 -> 0 < bound -> 0 <= r * bound < bound.
Proof. intros [H0 H1] Hb. split; nra. Qed.

End Scattered.

(** ** The layouts, style by style *)

Section Layouts.
Local Open Scope Q_scope.

Lemma positive_width (n : Z) : (0 < n)%Z -> 0 < inject_Z n.
Proof. intros H. rewrite Zlt_Qlt in H. exact H. Qed.

Lemma count_comp (lo hi hi' step : Q) :
  hi == hi' -> Reference.count lo hi step = Reference.count lo hi' step.
Proof. intros H. unfold Reference.count. now rewrite H. Qed.

Lemma diagonal_matches_reference (txt : string) (width height : Q) :
  Forall2 Reference.same_element
    (diagonal_elements txt width height) (Reference.diagonal width height txt).
Proof.
  unfold diagonal_elements, Reference.diagonal, Reference.range, fontSize.
  rewrite Math_max_Qmax.
  rewrite (count_comp (- width) (width * 2) (2 * width)) by ring.
  rewrite (count_comp (- height) (height * 2) (2 * height)) by ring.
  apply Forall2_tiling.
  - intros x x' y y' Hx Hy. unfold Reference.same_element. simpl.
    repeat split; try assumption; reflexivity.
  - apply steps_anchor. unfold Reference.anchor. simpl. ring.
  - apply steps_anchor. unfold Reference.anchor. simpl. ring.
Qed.




Lemma scattered_in_range (rng : nat -> Q) (txt : string) (width height : Q) (c : nat) :
  (forall n, 0 <= rng n < 1) -> 0 < width -> 0 < height ->
  Forall (fun e => 0 <= x e < width /\ 0 <= y e < height /\
                   0 <= rotationDegrees e < 360 /\ opacity e = 3 # 10)
         (scattered_elements rng txt width height c).
Proof.
  intros Hr Hw Hh. unfold scattered_elements. apply Forall_map, Forall_forall.
  intros i _. unfold scattered_element. simpl.
  repeat split; try (apply draw_scaled; [apply Hr | lra]); apply draw_scaled; auto; lra.
Qed.

End Layouts.

(** In double precision too the grid loops make five iterations per axis,
    for every width or height up to 4096. *)
Lemma grid_axis_binary64 (width : Z) :
  (1 <= width <= 4096)%Z ->
  option_map (@length spec_float) (Binary64.grid_axis width) = Some 5%nat.
Proof.
  intros Hw.
  assert (forallb Binary64.five_steps (seq 1 4096) = true) as Hall
    by (vm_compute; reflexivity).
  rewrite forallb_forall in Hall.
  specialize (Hall (Z.to_nat width)).
  rewrite in_seq in Hall. unfold Binary64.five_steps in Hall.
  rewrite Z2Nat.id in Hall by lia.
  destruct (Binary64.grid_axis width) as [xs |]; simpl.
  - f_equal. apply Nat.eqb_eq, Hall. lia.
  - discriminate Hall. lia.
Qed.

(** Where the exact model stops agreeing with doubles: for an integer of 53
    significant bits the rounded [width / 5], added five times, can stay
    below [width] and the loop makes a sixth iteration.  No image is that
    wide. *)
Example grid_axis_binary64_limit :
  option_map (@length spec_float) (Binary64.grid_axis 5629620083957513) = Some 6%nat.
Proof. vm_compute. reflexivity. Qed.



(** ** The diagonal tiling in double precision *)

Import Watermark64 Unrolled64 Layout64.

Section Doubles.

Lemma mul_comm (a b : spec_float) : mul a b = mul b a.
Proof.
  unfold mul. destruct a as [sa | sa | | sa ma ea], b as [sb | sb | | sb mb eb]; simpl;
    rewrite ?(xorb_comm sa sb); try reflexivity.
  now rewrite (Pos.mul_comm ma mb), (Z.add_comm ea eb).
Qed.

Lemma range_step (n : nat) (lo hi step : spec_float) :
  Reference64.range (S n) lo hi step
  = if SFltb lo hi then lo :: Reference64.range n (add lo step) hi step else [].
Proof. reflexivity. Qed.

Lemma ends_within_step (n : nat) (lo hi step : spec_float) :
  SFltb lo hi = true ->
  Reference64.ends_within (S n) lo hi step = Reference64.ends_within n (add lo step) hi step.
Proof. intros H. unfold Reference64.ends_within. rewrite range_step, H. reflexivity. Qed.

(** A loop whose variable leaves the range within [n] values runs, on any
    fuel from [n] on, its body over the range. *)
Lemma for_lt64_unroll {St : Type} (hi step : spec_float)
    (body : spec_float -> St -> M St) :
  forall (n fuel : nat) (lo : spec_float) (s : St) (c : nat),
    Reference64.ends_within n lo hi step = true -> (n <= fuel)%nat ->
    for_lt64 fuel lo hi step body s c
    = for_each64 (Reference64.range n lo hi step) body s c.
Proof.
  induction n as [| n IH]; intros fuel lo s c Hend Hf; [discriminate Hend |].
  destruct fuel as [| fuel]; [lia |].
  rewrite range_step. simpl for_lt64. destruct (SFltb lo hi) eqn:E; [| reflexivity].
  rewrite ends_within_step in Hend by exact E.
  simpl for_each64. unfold bind. destruct (body lo s c) as [[[s' | e] c'] |]; try reflexivity.
  apply IH; [exact Hend | lia].
Qed.

(** A loop whose variable never leaves the range returns on no fuel,
    provided its body does not throw. *)
Lemma for_lt64_stuck {St : Type} (lo hi step : spec_float)
    (body : spec_float -> St -> M St) :
  SFltb lo hi = true -> add lo step = lo ->
  (forall s c e c', body lo s c <> Some (Throw e, c')) ->
  forall (fuel : nat) (s : St) (c : nat), for_lt64 fuel lo hi step body s c = None.
Proof.
  intros Hlt Hsame Hbody n. induction n as [| n IH]; intros s c; [reflexivity |].
  simpl. rewrite Hlt, Hsame. unfold bind.
  destruct (body lo s c) as [[[s' | e] c'] |] eqn:Hb; [apply IH | | reflexivity].
  now apply Hbody in Hb.
Qed.

Lemma append_all64_nil (svg : SvgContent64) : append_all64 svg [] = svg.
Proof. destruct svg. unfold append_all64. simpl. now rewrite app_nil_r. Qed.

Lemma append_all64_app (svg : SvgContent64) (es fs : list TextElement64) :
  append_all64 (append_all64 svg es) fs = append_all64 svg (es ++ fs).
Proof. unfold append_all64. simpl. now rewrite app_assoc. Qed.

Lemma for_each64_appends (g : spec_float -> list TextElement64)
    (body : spec_float -> SvgContent64 -> M SvgContent64) :
  (forall x svg c, body x svg c = Some (Normal (append_all64 svg (g x)), c)) ->
  forall xs svg c,
    for_each64 xs body svg c = Some (Normal (append_all64 svg (flat_map g xs)), c).
Proof.
  intros Hb. induction xs as [| x xs IH]; intros svg c; simpl.
  - now rewrite append_all64_nil.
  - unfold bind. rewrite Hb, IH, append_all64_app. reflexivity.
Qed.

Lemma for_each64_no_throw (g : spec_float -> TextElement64) (xs : list spec_float)
    (svg : SvgContent64) (c : nat) :
  for_each64 xs (fun x svg => ret (append64 svg (g x))) svg c
  = Some (Normal (append_all64 svg (map g xs)), c).
Proof.
  rewrite <- flat_map_single.
  now apply for_each64_appends with (g := fun x => [g x]).
Qed.

(** Two nested loops that append one element per pair of values. *)
Lemma tiling64_run (n f : nat) (xlo xhi xstep ylo yhi ystep : spec_float)
    (e : spec_float -> spec_float -> TextElement64) (svg : SvgContent64) (c : nat) :
  Reference64.ends_within n xlo xhi xstep = true ->
  Reference64.ends_within n ylo yhi ystep = true ->
  (n <= f)%nat ->
  for_lt64 f ylo yhi ystep (fun y svg =>
    for_lt64 f xlo xhi xstep (fun x svg => ret (append64 svg (e x y))) svg) svg c
  = Some (Normal (append_all64 svg
                    (flat_map (fun y => map (fun x => e x y)
                                          (Reference64.range n xlo xhi xstep))
                              (Reference64.range n ylo yhi ystep))), c).
Proof.
  intros Hx Hy Hf.
  rewrite (for_lt64_unroll _ _ _ n) by assumption.
  apply for_each64_appends
    with (g := fun y => map (fun x => e x y) (Reference64.range n xlo xhi xstep)).
  intros y svg' c'.
  rewrite (for_lt64_unroll _ _ _ n) by assumption.
  apply for_each64_no_throw.
Qed.

(** The diagonal case, given that both accumulations leave their range
    within [n] values. *)
Lemma diagonal64_run (rng : nat -> spec_float) (f n : nat) (txt : string)
    (width height : spec_float) (c : nat) :
  Reference64.ends_within n (SFopp width) (mul (Binary64.of_Z 2) width)
    (Reference64.spacing width) = true ->
  Reference64.ends_within n (SFopp height) (mul (Binary64.of_Z 2) height)
    (Reference64.spacing width) = true ->
  (n <= f)%nat ->
  createWatermarkSVG64 rng f txt width height "diagonal" c
  = Some (Normal (append_all64 (header64 width height)
                    (Reference64.diagonal n width height txt)), c).
Proof.
  intros Hx Hy Hf. unfold createWatermarkSVG64.
  change (String.eqb "diagonal" "diagonal") with true. cbv iota zeta.
  rewrite (mul_comm width), (mul_comm height).
  change (mul (fontSize64 width) (Binary64.of_Z 3)) with (Reference64.spacing width).
  now apply tiling64_run.
Qed.

(** The grid case, likewise. *)
Lemma grid64_run (rng : nat -> spec_float) (f n : nat) (txt : string)
    (width height : spec_float) (c : nat) :
  Reference64.ends_within n (Binary64.of_Z 0) width (div width (Binary64.of_Z 5)) = true ->
  Reference64.ends_within n (Binary64.of_Z 0) height (div height (Binary64.of_Z 5)) = true ->
  (n <= f)%nat ->
  createWatermarkSVG64 rng f txt width height "grid" c
  = Some (Normal (append_all64 (header64 width height)
                    (grid_elements64 n txt width height)), c).
Proof.
  intros Hx Hy Hf. unfold createWatermarkSVG64.
  change (String.eqb "grid" "diagonal") with false.
  change (String.eqb "grid" "grid") with true. cbv iota zeta.
  now apply tiling64_run.
Qed.

(** A body that appends one element and takes three draws. *)
Lemma for_each64_draws (e : nat -> TextElement64)
    (body : spec_float -> SvgContent64 -> M SvgContent64) :
  (forall x svg c, body x svg c = Some (Normal (append64 svg (e c)), S (S (S c)))) ->
  forall xs svg c,
    for_each64 xs body svg c
    = Some (Normal (append_all64 svg (map (fun i => e (c + 3 * i)%nat) (seq 0 (length xs)))),
            (c + 3 * length xs)%nat).
Proof.
  intros Hb. induction xs as [| x xs IH]; intros svg c; simpl for_each64.
  - simpl. rewrite append_all64_nil, Nat.add_0_r. reflexivity.
  - unfold bind. rewrite Hb, IH. simpl length. rewrite <- cons_seq, <- seq_shift.
    rewrite map_cons, map_map, Nat.add_0_r.
    change (append64 svg (e c)) with (append_all64 svg [e c]). rewrite append_all64_app.
    simpl app.
    replace (c + 3 * S (length xs))%nat with (S (S (S c)) + 3 * length xs)%nat by lia.
    do 5 f_equal. apply map_ext. intros i. f_equal. lia.
Qed.

(** The scattered case: the counter runs over 0, 1, ..., 49 exactly. *)
Lemma scattered64_run (rng : nat -> spec_float) (f : nat) (txt : string)
    (width height : spec_float) (c : nat) :
  (50 < f)%nat ->
  createWatermarkSVG64 rng f txt width height "scattered" c
  = Some (Normal (append_all64 (header64 width height)
                    (scattered_elements64 rng txt width height c)), (c + 150)%nat).
Proof.
  intros Hf. unfold createWatermarkSVG64.
  change (String.eqb "scattered" "diagonal") with false.
  change (String.eqb "scattered" "grid") with false.
  change (String.eqb "scattered" "scattered") with true. cbv iota zeta.
  rewrite (for_lt64_unroll _ _ _ 51%nat) by (vm_compute; reflexivity || lia).
  rewrite (for_each64_draws (scattered_element64 rng txt width height)) by reflexivity.
  replace (length (Reference64.range 51 (Binary64.of_Z 0) (Binary64.of_Z 50) (Binary64.of_Z 1)))
    with 50%nat by (vm_compute; reflexivity).
  reflexivity.
Qed.

Lemma unknown_style64_run (rng : nat -> spec_float) (f : nat) (txt : string)
    (width height : spec_float) (style : string) (c : nat) :
  ~ known_style style ->
  createWatermarkSVG64 rng f txt width height style c
  = Some (Throw "Invalid watermark style", c).
Proof.
  intros Hs. unfold createWatermarkSVG64, known_style in *.
  destruct (String.eqb_spec style "diagonal"); [tauto |].
  destruct (String.eqb_spec style "grid"); [tauto |].
  destruct (String.eqb_spec style "scattered"); [tauto |].
  reflexivity.
Qed.

(** A range that has ended does not depend on how far it was looked for. *)
Lemma range_stable (hi step : spec_float) :
  forall (n m : nat) (lo : spec_float),
    Reference64.ends_within n lo hi step = true -> (n <= m)%nat ->
    Reference64.range m lo hi step = Reference64.range n lo hi step.
Proof.
  induction n as [| n IH]; intros m lo Hend Hm; [discriminate Hend |].
  destruct m as [| m]; [lia |].
  rewrite !range_step. destruct (SFltb lo hi) eqn:E; [| reflexivity].
  rewrite ends_within_step in Hend by exact E.
  f_equal. apply IH; [exact Hend | lia].
Qed.

Lemma ends_within_mono (hi step : spec_float) (n m : nat) (lo : spec_float) :
  Reference64.ends_within n lo hi step = true -> (n <= m)%nat ->
  Reference64.ends_within m lo hi step = true.
Proof.
  intros Hend Hm. unfold Reference64.ends_within.
  rewrite (range_stable hi step n m lo Hend Hm).
  unfold Reference64.ends_within in Hend. apply Nat.ltb_lt in Hend. apply Nat.ltb_lt. lia.
Qed.

(** A range of [n] values found among [n + 1] is the accumulation itself. *)
Lemma range_accumulate (hi step : spec_float) :
  forall (n : nat) (lo : spec_float),
    length (Reference64.range (S n) lo hi step) = n ->
    Reference64.range (S n) lo hi step = Reference64.accumulate n lo step.
Proof.
  induction n as [| n IH]; intros lo; rewrite range_step; destruct (SFltb lo hi); simpl;
    try reflexivity; try discriminate.
  intros H. f_equal. apply IH. congruence.
Qed.

Lemma Forall_tiling64 (P : TextElement64 -> Prop) (e : spec_float -> spec_float -> TextElement64)
    (xs ys : list spec_float) (A B : spec_float -> Prop) :
  Forall A xs -> Forall B ys ->
  (forall x y, A x -> B y -> P (e x y)) ->
  Forall P (flat_map (fun y => map (fun x => e x y) xs) ys).
Proof.
  rewrite !List.Forall_forall. intros Hxs Hys HP e0 He.
  apply in_flat_map in He as [y [Hy He]]. apply in_map_iff in He as [x [<- Hx]].
  auto.
Qed.

Lemma tiling64_length (e : spec_float -> spec_float -> TextElement64) (xs ys : list spec_float) :
  length (flat_map (fun y => map (fun x => e x y) xs) ys) = (length ys * length xs)%nat.
Proof.
  induction ys as [| y ys IH]; simpl; [reflexivity |].
  rewrite length_app, length_map, IH. reflexivity.
Qed.

(** A property checked for 1, ..., n holds of every integer in that range. *)
Lemma checked_upto (P : nat -> bool) (n : nat) (z : Z) :
  forallb P (seq 1 n) = true -> (1 <= z <= Z.of_nat n)%Z -> P (Z.to_nat z) = true.
Proof. intros H Hz. rewrite forallb_forall in H. apply H. apply in_seq. lia. Qed.

Lemma grid_axis_checked (width : Z) :
  (1 <= width <= 4096)%Z ->
  let w := Binary64.of_Z width in
  Reference64.ends_within 6 (Binary64.of_Z 0) w (div w (Binary64.of_Z 5)) = true /\
  grid_columns 6 w = Reference64.accumulate 5 (Binary64.of_Z 0) (div w (Binary64.of_Z 5)) /\
  Forall (fun v => within (Binary64.of_Z 0) w v = true) (grid_columns 6 w).
Proof.
  intros Hw w.
  assert (grid_axis_ok (Z.to_nat width) = true) as H
    by (apply (checked_upto grid_axis_ok 4096); [vm_compute; reflexivity | lia]).
  unfold grid_axis_ok in H. cbv zeta in H. rewrite Z2Nat.id in H by lia. fold w in H.
  rewrite !andb_true_iff in H. destruct H as [[Hend Hlen] Hin].
  apply Nat.eqb_eq in Hlen. rewrite forallb_forall in Hin.
  split; [exact Hend | split].
  - now apply range_accumulate.
  - apply List.Forall_forall. exact Hin.
Qed.

Lemma diagonal_axis_checked (width : Z) :
  (1 <= width <= 4096)%Z ->
  let w := Binary64.of_Z width in
  Reference64.ends_within 22 (SFopp w) (mul (Binary64.of_Z 2) w) (Reference64.spacing w) = true /\
  ((width < 480)%Z -> Z.of_nat (length (Reference64.columns 22 w)) = ((width + 23) / 24)%Z) /\
  ((480 <= width)%Z -> length (Reference64.columns 22 w) = 20%nat \/
                       length (Reference64.columns 22 w) = 21%nat).
Proof.
  intros Hw w.
  assert (diagonal_axis_ok (Z.to_nat width) = true) as H
    by (apply (checked_upto diagonal_axis_ok 4096); [vm_compute; reflexivity | lia]).
  unfold diagonal_axis_ok in H. cbv zeta in H. rewrite Z2Nat.id in H by lia. fold w in H.
  rewrite andb_true_iff in H. destruct H as [Hend Hlen].
  split; [exact Hend | split].
  - intros Hlt. destruct (Nat.ltb_spec (Z.to_nat width) 480) as [_ | Hge]; [| lia].
    apply Nat.eqb_eq in Hlen. rewrite Hlen, Nat2Z.inj_div, Nat2Z.inj_add, Z2Nat.id by lia.
    reflexivity.
  - intros Hge. destruct (Nat.ltb_spec (Z.to_nat width) 480) as [Hlt | _]; [lia |].
    apply orb_true_iff in Hlen as [Hlen | Hlen]; apply Nat.eqb_eq in Hlen; auto.
Qed.

(** The four loops of a square image up to 4096 pixels end within 22
    values. *)
Lemma loops_end_square (width : Z) (n : nat) :
  (1 <= width <= 4096)%Z -> (22 <= n)%nat ->
  loops_end n (Binary64.of_Z width) (Binary64.of_Z width) = true.
Proof.
  intros Hw Hn.
  destruct (diagonal_axis_checked width Hw) as (Hd & _).
  destruct (grid_axis_checked width Hw) as (Hg & _).
  cbv zeta in Hd, Hg. unfold loops_end.
  rewrite (ends_within_mono _ _ 22 n _ Hd Hn).
  rewrite (ends_within_mono _ _ 6 n _ Hg) by lia.
  reflexivity.
Qed.

(** A loop keeps what every round of its body keeps. *)
Lemma for_lt64_invariant {St : Type} (P : St -> Prop) (hi step : spec_float)
    (body : spec_float -> St -> M St) :
  (forall x s c s' c', P s -> body x s c = Some (Normal s', c') -> P s') ->
  forall (f : nat) (x : spec_float) (s : St) (c : nat) (s' : St) (c' : nat),
    P s -> for_lt64 f x hi step body s c = Some (Normal s', c') -> P s'.
Proof.
  intros Hbody. induction f as [| f IH]; intros x s c s' c' Hs Hrun; [discriminate Hrun |].
  simpl in Hrun. destruct (SFltb x hi).
  - unfold bind in Hrun. destruct (body x s c) as [[[s1 | e] c1] |] eqn:Hb; try discriminate.
    eapply IH; [eapply Hbody; eassumption | exact Hrun].
  - injection Hrun as <- _. exact Hs.
Qed.

(** In double precision too every element of a layout that is returned
    carries the one font size, whatever the style and the size. *)
Lemma fontSize64_shared (rng : nat -> spec_float) (f : nat) (txt : string)
    (width height : spec_float) (style : string) (c : nat) (svg : SvgContent64) (c' : nat) :
  createWatermarkSVG64 rng f txt width height style c = Some (Normal svg, c') ->
  Forall (fun e => font_size64 e = fontSize64 width) (elements64 svg).
Proof.
  set (P := fun svg : SvgContent64 =>
              Forall (fun e => font_size64 e = fontSize64 width) (elements64 svg)).
  assert (forall svg e, P svg -> font_size64 e = fontSize64 width -> P (append64 svg e)) as Happ.
  { intros svg0 e Hsvg He. unfold P, append64. simpl. apply Forall_app. split; auto. }
  assert (P (header64 width height)) as Hhead by constructor.
  unfold createWatermarkSVG64.
  destruct (String.eqb style "diagonal"); [| destruct (String.eqb style "grid");
    [| destruct (String.eqb style "scattered"); [| discriminate]]]; cbv zeta;
    apply (for_lt64_invariant P); try exact Hhead.
  - intros y s0 c0 s1 c1 Hs0. apply (for_lt64_invariant P); [| exact Hs0].
    intros x s2 c2 s3 c3 Hs2 Hret. injection Hret as <- _. now apply Happ.
  - intros y s0 c0 s1 c1 Hs0. apply (for_lt64_invariant P); [| exact Hs0].
    intros x s2 c2 s3 c3 Hs2 Hret. injection Hret as <- _. now apply Happ.
  - intros i s0 c0 s1 c1 Hs0 Hret. injection Hret as <- _. now apply Happ.
Qed.

Lemma diagonal64_attributes (n : nat) (width height : spec_float) (txt : string) :
  Forall (fun e => rotationDegrees64 e = Binary64.of_Z (-30) /\ opacity64 e = (3 # 10)%Q)
    (Reference64.diagonal n width height txt).
Proof.
  unfold Reference64.diagonal. rewrite List.Forall_forall. intros e He.
  apply in_flat_map in He as [y [_ He]]. apply in_map_iff in He as [x [<- _]].
  split; reflexivity.
Qed.

(** When the spacing is absorbed by the rounding of [y + spacing] the outer
    loop never advances: for width 1 and height 2^61 the generator returns
    on no fuel. *)
Lemma diagonal64_absorbed (rng : nat -> spec_float) (fuel : nat) (txt : string) (c : nat) :
  createWatermarkSVG64 rng fuel txt (Binary64.of_Z 1) (Binary64.of_Z (2 ^ 61)) "diagonal" c
  = None.
Proof.
  unfold createWatermarkSVG64.
  change (String.eqb "diagonal" "diagonal") with true. cbv iota zeta.
  apply for_lt64_stuck; [vm_compute; reflexivity | vm_compute; reflexivity |].
  intros svg c0 e c' H.
  destruct fuel as [| [| f]]; [discriminate H | |].
  - vm_compute in H. discriminate H.
  - rewrite (for_lt64_unroll _ _ _ 2%nat) in H; [| vm_compute; reflexivity | lia].
    rewrite for_each64_no_throw in H. discriminate H.
Qed.

End Doubles.

(** C2, as the code has it.  Whenever the two accumulations of the diagonal
    tiling (x from -width, y from -height, each by the double
    spacing = max(width / 20, 24) * 3) leave their ranges below 2 * width
    and 2 * height within n values, the generator returns, on every fuel
    from n on and whatever the random source, one and the same layout: the
    enumeration of those accumulated anchors, outer loop y and inner loop
    x, one element per anchor, rotated by -30 with opacity 0.3. *)
Theorem diagonal_layout_accumulated (width height : Z) (txt : string) (n : nat) :
  let w := Binary64.of_Z width in
  let h := Binary64.of_Z height in
  Reference64.ends_within n (SFopp w) (mul (Binary64.of_Z 2) w) (Reference64.spacing w) = true ->
  Reference64.ends_within n (SFopp h) (mul (Binary64.of_Z 2) h) (Reference64.spacing w) = true ->
  exists svg : SvgContent64,
    (forall rng fuel c, (n <= fuel)%nat ->
       createWatermarkSVG64 rng fuel txt w h "diagonal" c = Some (Normal svg, c)) /\
    elements64 svg = Reference64.diagonal n w h txt /\
    Forall (fun e => rotationDegrees64 e = Binary64.of_Z (-30) /\ opacity64 e = (3 # 10)%Q)
      (elements64 svg).
Proof.
  intros w h Hx Hy.
  exists (append_all64 (header64 w h) (Reference64.diagonal n w h txt)).
  split; [| split].
  - intros rng fuel c Hf. now apply diagonal64_run.
  - reflexivity.
  - apply diagonal64_attributes.
Qed.

Lemma diagonal_layout_accumulated_witness :
  let w := Binary64.of_Z 481 in
  let h := Binary64.of_Z 300 in
  exists svg : SvgContent64,
    (forall rng fuel c, (25 <= fuel)%nat ->
       createWatermarkSVG64 rng fuel "hi" w h "diagonal" c = Some (Normal svg, c)) /\
    elements64 svg = Reference64.diagonal 25 w h "hi" /\
    Forall (fun e => rotationDegrees64 e = Binary64.of_Z (-30) /\ opacity64 e = (3 # 10)%Q)
      (elements64 svg).
Proof.
  apply (diagonal_layout_accumulated 481 300 "hi" 25); vm_compute; reflexivity.
Defined.

(** C2 as stated fails on the code.  On a 481 x 481 image the spacing is
    the double nearest 72.15 and the twentieth addition gives
    961.9999999999998, still below 962: the code draws 21 anchors per row
    and 441 in all, where the enumeration in exact steps of the claim has
    20 per row and 400.  And for width 1 and height 2^61 the generator
    returns no layout at all. *)
Lemma diagonal_layout_not_exact :
  (exists svg : SvgContent64,
     (forall rng fuel c, (25 <= fuel)%nat ->
        createWatermarkSVG64 rng fuel "hi" (Binary64.of_Z 481) (Binary64.of_Z 481) "diagonal" c
        = Some (Normal svg, c)) /\
     length (elements64 svg) = 441%nat /\
     length (Reference.diagonal 481 481 "hi") = 400%nat) /\
  (nth_error (Reference64.columns 25 (Binary64.of_Z 481)) 20
   = Some (S754_finite false 8461841487364094 (-43)) /\
   Binary64.of_Z 962 = S754_finite false 8461841487364096 (-43)) /\
  (forall rng fuel c,
     createWatermarkSVG64 rng fuel "hi" (Binary64.of_Z 1) (Binary64.of_Z (2 ^ 61)) "diagonal" c
     = None).
Proof.
  split.
  - exists (append_all64 (header64 (Binary64.of_Z 481) (Binary64.of_Z 481))
              (Reference64.diagonal 25 (Binary64.of_Z 481) (Binary64.of_Z 481) "hi")).
    split; [| split].
    + intros rng fuel c Hf. apply diagonal64_run; [vm_compute; reflexivity .. | exact Hf].
    + vm_compute. reflexivity.
    + vm_compute. reflexivity.
  - split; [split; vm_compute; reflexivity |].
    intros rng fuel c. apply diagonal64_absorbed.
Qed.

Section FontSize.
Local Open Scope Q_scope.







End FontSize.



(** C4.  For every positive width and height and every stream of draws in
    [0,1), the scattered style returns exactly 50 elements, each with x in
    [0,width), y in [0,height), rotation in [0,360) and opacity 0.3; it
    takes 150 draws. *)
Theorem scattered_layout_50 (width height : Z) (txt : string) (rng : nat -> Q) (c : nat) :
  (0 < width)%Z -> (0 < height)%Z ->
  (forall n, (0 <= rng n < 1)%Q) ->
  exists svg : SvgContent,
    (forall fuel, (50 < fuel)%nat ->
       createWatermarkSVG rng fuel txt (inject_Z width) (inject_Z height) "scattered" c
       = Some (Normal svg, (c + 150)%nat)) /\
    length (elements svg) = 50%nat /\
    Forall (fun e => (0 <= x e < inject_Z width)%Q /\ (0 <= y e < inject_Z height)%Q /\
                     (0 <= rotationDegrees e < 360)%Q /\ opacity e = (3 # 10)%Q)
           (elements svg).
Proof.
  intros Hw Hh Hr. apply positive_width in Hw, Hh.
  exists (append_all (header (inject_Z width) (inject_Z height))
            (scattered_elements rng txt (inject_Z width) (inject_Z height) c)).
  split; [| split].
  - intros fuel Hf. now apply scattered_run.
  - rewrite elements_from_header. unfold scattered_elements.
    rewrite length_map, length_seq. reflexivity.
  - rewrite elements_from_header. now apply scattered_in_range.
Qed.

Lemma scattered_layout_50_witness :
  exists svg : SvgContent,
    (forall fuel, (50 < fuel)%nat ->
       createWatermarkSVG alternating fuel "hi" (inject_Z 640) (inject_Z 480) "scattered" 0
       = Some (Normal svg, (0 + 150)%nat)) /\
    length (elements svg) = 50%nat /\
    Forall (fun e => (0 <= x e < inject_Z 640)%Q /\ (0 <= y e < inject_Z 480)%Q /\
                     (0 <= rotationDegrees e < 360)%Q /\ opacity e = (3 # 10)%Q)
           (elements svg).
Proof.
  apply (scattered_layout_50 640 480 "hi" alternating 0); [lia | lia |].
  intros n. unfold alternating. destruct (Nat.even n); split; vm_compute; congruence.
Defined.

(** C5.  A style other than "diagonal", "grid" and "scattered" makes the
    generator throw "Invalid watermark style", for every width, height,
    text and fuel; no layout is returned and no draw is taken. *)
Theorem unknown_style_throws (rng : nat -> Q) (fuel : nat) (txt : string)
    (width height : Q) (style : string) (c : nat) :
  style <> "diagonal" -> style <> "grid" -> style <> "scattered" ->
  createWatermarkSVG rng fuel txt width height style c
  = Some (Throw "Invalid watermark style", c).
Proof.
  intros Hd Hg Hs. unfold createWatermarkSVG.
  destruct (String.eqb_spec style "diagonal"); [contradiction |].
  destruct (String.eqb_spec style "grid"); [contradiction |].
  destruct (String.eqb_spec style "scattered"); [contradiction |].
  reflexivity.
Qed.

Lemma unknown_style_throws_witness :
  createWatermarkSVG alternating 0 "hi" 640 480 "Grid" 0
  = Some (Throw "Invalid watermark style", 0%nat).
Proof. apply unknown_style_throws; discriminate. Defined.

(** ** The handlers *)

Section Handlers.

Lemma delete_removes (p : string) (w : World) : p ∉ files (deleteFileFromServer p w).
Proof.
  unfold deleteFileFromServer. destruct (decide (p ∈ files w)) as [Hin | Hin]; simpl.
  - apply not_elem_of_difference. right. now apply elem_of_singleton.
  - exact Hin.
Qed.

Lemma delete_present (p : string) (w : World) :
  p ∈ files w ->
  deleteFileFromServer p w
  = {| files := files w ∖ {[p]}; trace := (trace w ++ [Unlinked p])%list |}.
Proof. intros H. unfold deleteFileFromServer. rewrite decide_True by exact H. reflexivity. Qed.

Lemma files_respond (code : Z) (p : Payload) (w : World) : files (respond code p w) = files w.
Proof. reflexivity. Qed.

Lemma responses_respond (code : Z) (p : Payload) (w : World) :
  responses (respond code p w) = (responses w ++ [{| status := code; payload := p |}])%list.
Proof. unfold responses, respond, emit. simpl. now rewrite omap_app. Qed.

Lemma responses_delete (p : string) (w : World) :
  responses (deleteFileFromServer p w) = responses w.
Proof.
  unfold responses, deleteFileFromServer. case_decide; simpl; rewrite omap_app; simpl;
    now rewrite app_nil_r.
Qed.

Lemma positive_not_falsy (width height : int) :
  isNaN width || isNaN height || le0 width || le0 height = false ->
  falsy width && falsy height = false.
Proof.
  destruct width as [| w], height as [| h]; simpl; try discriminate.
  rewrite !orb_false_iff. intros [Hw Hh].
  apply Z.leb_gt in Hw. apply andb_false_iff. left. apply Z.eqb_neq. lia.
Qed.

End Handlers.

(** No event of an explicit trace is the one excluded. *)
Ltac not_in_trace :=
  let H := fresh "H" in
  intros H; simpl in H;
  repeat (apply elem_of_cons in H as [H | H]; [discriminate H |]);
  now apply elem_of_nil in H.

(** C6.  A watermark request with an uploaded file and no watermark text
    in the query or in the body is answered 400 with
    {message: "Watermark text is required"}; the input file is unlinked
    first and is gone afterwards.  No default stands in for a missing
    text: whenever the guard lets a request through, the text used is the
    one supplied in the query or, failing that, in the body. *)
Theorem watermark_text_required (env : Env) (req : Request) (f : File) (fs : gset string) :
  file req = Some f ->
  path f ∈ fs ->
  truthy (query req !! "watermark") = false ->
  truthy (body req !! "watermark") = false ->
  (exists w, waterMarkImage env req fs = Some w /\
     trace w = [Unlinked (path f);
                Responded {| status := 400;
                             payload := Json [("message", "Watermark text is required")] |}] /\
     files w = fs ∖ {[path f]}) /\
  (forall req' : Request,
     negb (truthy (query req' !! "watermark")) && negb (truthy (body req' !! "watermark")) = false ->
     Some (rawWatermarkText req') = either req' "watermark" /\ rawWatermarkText req' <> "").
Proof.
  intros Hfile Hin Hq Hb. split.
  - unfold waterMarkImage. rewrite Hfile, Hq, Hb. simpl andb. cbv iota.
    eexists. split; [reflexivity |].
    rewrite delete_present by exact Hin. split; reflexivity.
  - intros req'. unfold rawWatermarkText, either, JS.or, or_else, truthy.
    destruct (query req' !! "watermark") as [q |], (body req' !! "watermark") as [b |]; simpl;
      repeat match goal with
             | |- context [String.eqb ?a ""] => destruct (String.eqb a "") eqn:?
             end; simpl; try discriminate; intros _;
      repeat match goal with
             | H : String.eqb _ _ = false |- _ => rewrite ?H; apply String.eqb_neq in H
             end; split; solve [reflexivity | assumption].
Qed.

Lemma watermark_text_required_witness :
  (exists w, waterMarkImage demo_env no_text_req {[ path demo_file ]} = Some w /\
     trace w = [Unlinked (path demo_file);
                Responded {| status := 400;
                             payload := Json [("message", "Watermark text is required")] |}] /\
     files w = {[ path demo_file ]} ∖ {[path demo_file]}) /\
  (forall req' : Request,
     negb (truthy (query req' !! "watermark")) && negb (truthy (body req' !! "watermark")) = false ->
     Some (rawWatermarkText req') = either req' "watermark" /\ rawWatermarkText req' <> "").
Proof.
  apply (watermark_text_required demo_env no_text_req demo_file {[ path demo_file ]});
    [reflexivity | set_solver | reflexivity | reflexivity].
Defined.

(** C8.  When the extraction of a crop request with positive cropWidth and
    cropHeight fails in the library, the handler answers 400 exactly when
    the error message carries "extract_area: bad extract area" and 500 for
    every other failure; either way the input file is gone afterwards. *)
Theorem crop_failure_status (env : Env) (req : Request) (f : File) (fs : gset string)
    (cropWidth cropHeight : Z) (message : string) :
  file req = Some f ->
  parseInt (either req "cropWidth") = Int cropWidth -> (0 < cropWidth)%Z ->
  parseInt (either req "cropHeight") = Int cropHeight -> (0 < cropHeight)%Z ->
  sharp_toFile env (path f)
    (Extract (Int cropWidth) (Int cropHeight)
       (parseInt (either req "cropX")) (parseInt (either req "cropY")))
    (resolve env ("cropped-" +:+ filename f)) = Throw message ->
  responses (cropImage env req fs)
  = [if includes message "extract_area: bad extract area"
     then {| status := 400;
             payload := Text "Invalid crop parameters. Please check the coordinates and dimensions." |}
     else {| status := 500; payload := Text "Error processing image." |}] /\
  path f ∉ files (cropImage env req fs).
Proof.
  intros Hfile Hw Hwpos Hh Hhpos Hsharp. unfold cropImage.
  rewrite Hfile, Hw, Hh. simpl isNaN. simpl le0.
  rewrite (proj2 (Z.leb_gt cropWidth 0) Hwpos), (proj2 (Z.leb_gt cropHeight 0) Hhpos).
  simpl orb. cbv iota. rewrite Hsharp.
  destruct (includes message "extract_area: bad extract area");
    (split; [rewrite responses_respond, responses_delete; reflexivity
            | rewrite files_respond; apply delete_removes]).
Qed.

Lemma crop_failure_status_witness :
  responses (cropImage small_image_env crop_req {[ path demo_file ]})
  = [if includes "extract_area: bad extract area" "extract_area: bad extract area"
     then {| status := 400;
             payload := Text "Invalid crop parameters. Please check the coordinates and dimensions." |}
     else {| status := 500; payload := Text "Error processing image." |}] /\
  path demo_file ∉ files (cropImage small_image_env crop_req {[ path demo_file ]}).
Proof.
  apply (crop_failure_status small_image_env crop_req demo_file {[ path demo_file ]} 100 100
           "extract_area: bad extract area"); (reflexivity || lia).
Defined.

(** C10.  The resize handler never answers 400 with "The width and height
    parameters are required": a request that passes the check of the
    dimensions has width > 0, so !width && !height is false. *)
Theorem resize_required_unreachable (env : Env) (req : Request) (fs : gset string) :
  (Responded {| status := 400;
                payload := Json [("message", "The width and height parameters are required")] |}
     ∉ trace (resizeImage env req fs)) /\
  (forall width height : int,
     isNaN width || isNaN height || le0 width || le0 height = false ->
     falsy width && falsy height = false).
Proof.
  split; [| exact positive_not_falsy].
  unfold resizeImage.
  set (width := parseInt (query req !! "width")).
  set (height := parseInt (query req !! "height")).
  destruct (file req) as [f |]; [| not_in_trace].
  destruct (isNaN width || isNaN height || le0 width || le0 height) eqn:Hdim.
  - unfold respond, emit, deleteFileFromServer. destruct (decide _); not_in_trace.
  - rewrite (positive_not_falsy _ _ Hdim).
    destruct (sharp_toFile env (path f) (Resize width height) _); [| not_in_trace].
    unfold respond, emit, deleteFileFromServer. destruct (decide _); not_in_trace.
Qed.

(** C7.  Two uploads of files with the same original name, made at
    different times and stored under different generated names, are both
    filtered into "filtered-cat.jpg": the second request overwrites the
    output of the first.  The name written by the filter handler carries no
    uniqueness token. *)
Theorem filter_output_collision :
  filename demo_file <> filename later_file /\
  path demo_file <> path later_file /\
  trace (filterImage demo_env (filter_req demo_file "grayscale") {[ path demo_file ]})
  = [Written "/srv/src/images/filtered-cat.jpg";
     Unlinked "/srv/src/images/image-1700000000000-42.jpg";
     Responded {| status := 200;
                  payload := Json [("message", "Image filtered successfully!");
                                   ("path", "/srv/src/images/filtered-cat.jpg");
                                   ("filter", "grayscale")] |}] /\
  trace (filterImage later_env (filter_req later_file "blur")
           {[ path later_file; "/srv/src/images/filtered-cat.jpg" ]})
  = [Written "/srv/src/images/filtered-cat.jpg";
     Unlinked "/srv/src/images/image-1700000005000-7.jpg";
     Responded {| status := 200;
                  payload := Json [("message", "Image filtered successfully!");
                                   ("path", "/srv/src/images/filtered-cat.jpg");
                                   ("filter", "blur")] |}].
Proof. repeat split; try discriminate; vm_compute; reflexivity. Qed.

(** C9.  A watermark style supplied only in the body is not read: the
    request is served with the default style "diagonal", while the same
    style in the query is honoured. *)
Theorem watermark_body_style_ignored :
  watermarkStyle body_style_req = "diagonal" /\
  watermarkStyle query_style_req = "grid" /\
  responses <$> waterMarkImage demo_env body_style_req {[ path demo_file ]}
  = Some [{| status := 200;
             payload := Json [("message", "Image watermarked successfully!");
                              ("path", "/srv/src/images/watermarked-1700000000123-cat.jpg");
                              ("filename", "watermarked-1700000000123-cat.jpg");
                              ("style", "diagonal")] |}] /\
  responses <$> waterMarkImage demo_env query_style_req {[ path demo_file ]}
  = Some [{| status := 200;
             payload := Json [("message", "Image watermarked successfully!");
                              ("path", "/srv/src/images/watermarked-1700000000123-cat.jpg");
                              ("filename", "watermarked-1700000000123-cat.jpg");
                              ("style", "grid")] |}].
Proof. repeat split; vm_compute; reflexivity. Qed.

(** ** More on the layout generator *)

Section Generator.
Local Open Scope Q_scope.








Lemma unknown_style_run (rng : nat -> Q) (fuel : nat) (txt : string)
    (width height : Q) (style : string) (c : nat) :
  ~ known_style style ->
  createWatermarkSVG rng fuel txt width height style c
  = Some (Throw "Invalid watermark style", c).
Proof.
  intros Hs. unfold createWatermarkSVG, known_style in *.
  destruct (String.eqb_spec style "diagonal"); [tauto |].
  destruct (String.eqb_spec style "grid"); [tauto |].
  destruct (String.eqb_spec style "scattered"); [tauto |].
  reflexivity.
Qed.

Lemma known_style_dec (style : string) : known_style style \/ ~ known_style style.
Proof.
  unfold known_style.
  destruct (String.eqb_spec style "diagonal"); [tauto |].
  destruct (String.eqb_spec style "grid"); [tauto |].
  destruct (String.eqb_spec style "scattered"); tauto.
Qed.

End Generator.

(** X1.  In double precision the generator returns whenever the four
    loops over the width and the height leave their ranges within n
    values, n above the 50 rounds of the scattered loop: on every fuel
    from n on, for every text, random source and style, it returns a
    layout exactly when the style is one of the three and throws
    otherwise.  (Without the proviso it need not return: see
    [diagonal64_absorbed].) *)
Theorem createWatermarkSVG64_returns (txt : string) (width height : spec_float)
    (style : string) (n : nat) :
  loops_end n width height = true -> (50 < n)%nat ->
  forall rng fuel c, (n <= fuel)%nat ->
    exists r c',
      createWatermarkSVG64 rng fuel txt width height style c = Some (r, c') /\
      ((exists svg, r = Normal svg) <-> known_style style).
Proof.
  intros Hloops Hn rng fuel c Hf. unfold loops_end in Hloops.
  rewrite !andb_true_iff in Hloops. destruct Hloops as [[[Hdx Hdy] Hgx] Hgy].
  destruct (known_style_dec style) as [Hk | Hk].
  - destruct Hk as [-> | [-> | ->]]; eexists _, _;
      (split; [| split; [intros _; unfold known_style; tauto | eauto]]).
    + now apply (diagonal64_run rng fuel n).
    + now apply (grid64_run rng fuel n).
    + apply scattered64_run. lia.
  - eexists _, _. split; [now apply unknown_style64_run |].
    split; [intros [svg Hsvg]; discriminate | tauto].
Qed.

Lemma createWatermarkSVG64_returns_witness :
  loops_end 51 (Binary64.of_Z 481) (Binary64.of_Z 300) = true /\
  exists r c',
    createWatermarkSVG64 (fun _ => Binary64.of_Z 0) 60 "hi"
      (Binary64.of_Z 481) (Binary64.of_Z 300) "diagonal" 0 = Some (r, c') /\
    ((exists svg, r = Normal svg) <-> known_style "diagonal").
Proof.
  split; [vm_compute; reflexivity |].
  apply (createWatermarkSVG64_returns "hi" (Binary64.of_Z 481) (Binary64.of_Z 300)
           "diagonal" 51); [vm_compute; reflexivity | lia | lia].
Defined.

(** X2.  The size of the diagonal layout as the code draws it, for widths
    up to 4096: the layout has one row per value of the y loop and k
    elements per row, where k = ceil(width / 24) below 480 pixels and k is
    20 or 21 from 480 pixels on, depending on the rounding of the
    accumulated x: 21 at width 481, 20 at width 640.  A square image has
    k * k elements. *)
Theorem diagonal64_layout_size (width height : Z) (txt : string) (n : nat) :
  (1 <= width <= 4096)%Z -> (22 <= n)%nat ->
  let w := Binary64.of_Z width in
  let h := Binary64.of_Z height in
  Reference64.ends_within n (SFopp h) (mul (Binary64.of_Z 2) h) (Reference64.spacing w) = true ->
  exists (svg : SvgContent64) (k : nat),
    (forall rng fuel c, (n <= fuel)%nat ->
       createWatermarkSVG64 rng fuel txt w h "diagonal" c = Some (Normal svg, c)) /\
    length (elements64 svg) = (length (Reference64.rows n w h) * k)%nat /\
    (height = width -> length (elements64 svg) = (k * k)%nat) /\
    ((width < 480)%Z -> Z.of_nat k = ((width + 23) / 24)%Z) /\
    ((480 <= width)%Z -> k = 20%nat \/ k = 21%nat) /\
    (width = 481%Z -> k = 21%nat) /\
    (width = 640%Z -> k = 20%nat).
Proof.
  intros Hw Hn w h Hrows.
  destruct (diagonal_axis_checked width Hw) as (Hend & Hsmall & Hwide). fold w in Hend, Hsmall, Hwide.
  pose proof (ends_within_mono _ _ 22 n _ Hend Hn) as Hcols.
  pose proof (range_stable _ _ 22 n _ Hend Hn) as Hsame.
  exists (append_all64 (header64 w h) (Reference64.diagonal n w h txt)),
         (length (Reference64.columns 22 w)).
  assert (length (Reference64.diagonal n w h txt)
          = (length (Reference64.rows n w h) * length (Reference64.columns 22 w))%nat) as Hlen.
  { unfold Reference64.diagonal. rewrite tiling64_length.
    unfold Reference64.columns at 1. rewrite Hsame. reflexivity. }
  repeat split.
  - intros rng fuel c Hf. now apply diagonal64_run.
  - exact Hlen.
  - intros ->. cbn [elements64 append_all64 header64 app]. rewrite Hlen. f_equal.
    unfold Reference64.rows. fold h. change h with w. rewrite Hsame. reflexivity.
  - exact Hsmall.
  - exact Hwide.
  - intros ->. vm_compute. reflexivity.
  - intros ->. vm_compute. reflexivity.
Qed.

Lemma diagonal64_layout_size_witness :
  let w := Binary64.of_Z 481 in
  let h := Binary64.of_Z 300 in
  exists (svg : SvgContent64) (k : nat),
    (forall rng fuel c, (25 <= fuel)%nat ->
       createWatermarkSVG64 rng fuel "hi" w h "diagonal" c = Some (Normal svg, c)) /\
    length (elements64 svg) = (length (Reference64.rows 25 w h) * k)%nat /\
    (300%Z = 481%Z -> length (elements64 svg) = (k * k)%nat) /\
    ((481 < 480)%Z -> Z.of_nat k = ((481 + 23) / 24)%Z) /\
    ((480 <= 481)%Z -> k = 20%nat \/ k = 21%nat) /\
    (481%Z = 481%Z -> k = 21%nat) /\
    (481%Z = 640%Z -> k = 20%nat).
Proof.
  apply (diagonal64_layout_size 481 300 "hi" 25); [lia | lia | vm_compute; reflexivity].
Defined.

(** X3.  For a width and height up to 4096 the grid, as the code draws it
    in double precision, has 25 elements on every fuel from 6 on; their
    anchors are, row by row, the pairs of the first five values of the
    accumulations 0, 0 + width / 5, ... and 0, 0 + height / 5, ..., and
    every anchor lies on the canvas: 0 <= x < width and 0 <= y < height. *)
Theorem grid64_layout_anchors (width height : Z) (txt : string) :
  (1 <= width <= 4096)%Z -> (1 <= height <= 4096)%Z ->
  let w := Binary64.of_Z width in
  let h := Binary64.of_Z height in
  exists svg : SvgContent64,
    (forall rng fuel c, (6 <= fuel)%nat ->
       createWatermarkSVG64 rng fuel txt w h "grid" c = Some (Normal svg, c)) /\
    length (elements64 svg) = 25%nat /\
    map (fun e => (x64 e, y64 e)) (elements64 svg) = grid_anchors64 w h /\
    Forall (fun e => within (Binary64.of_Z 0) w (x64 e) = true /\
                     within (Binary64.of_Z 0) h (y64 e) = true) (elements64 svg).
Proof.
  intros Hw Hh w h.
  destruct (grid_axis_checked width Hw) as (Hxend & Hxs & Hxin).
  destruct (grid_axis_checked height Hh) as (Hyend & Hys & Hyin).
  fold w in Hxend, Hxs, Hxin. fold h in Hyend, Hys, Hyin.
  change (grid_columns 6 h) with (grid_rows 6 h) in Hys, Hyin.
  exists (append_all64 (header64 w h) (grid_elements64 6 txt w h)).
  assert (elements64 (append_all64 (header64 w h) (grid_elements64 6 txt w h))
          = grid_elements64 6 txt w h) as -> by reflexivity.
  split; [| split; [| split]].
  - intros rng fuel c Hf. now apply grid64_run.
  - unfold grid_elements64. rewrite tiling64_length, Hxs, Hys. reflexivity.
  - unfold grid_elements64, grid_anchors64. rewrite Hxs, Hys. reflexivity.
  - unfold grid_elements64. eapply Forall_tiling64; [exact Hxin | exact Hyin |].
    intros x0 y0 Hx Hy. split; assumption.
Qed.

Lemma grid64_layout_anchors_witness :
  let w := Binary64.of_Z 7 in
  let h := Binary64.of_Z 3 in
  exists svg : SvgContent64,
    (forall rng fuel c, (6 <= fuel)%nat ->
       createWatermarkSVG64 rng fuel "hi" w h "grid" c = Some (Normal svg, c)) /\
    length (elements64 svg) = 25%nat /\
    map (fun e => (x64 e, y64 e)) (elements64 svg) = grid_anchors64 w h /\
    Forall (fun e => within (Binary64.of_Z 0) w (x64 e) = true /\
                     within (Binary64.of_Z 0) h (y64 e) = true) (elements64 svg).
Proof. apply (grid64_layout_anchors 7 3 "hi"); lia. Defined.

(** On a 7 x 3 image the fourth column of the grid is at
    4.199999999999999, one unit in the last place below the double nearest
    to 21 / 5, and the fourth row at 1.7999999999999998, below the double
    nearest to 9 / 5. *)
Example grid64_7_by_3 :
  nth_error (grid_anchors64 (Binary64.of_Z 7) (Binary64.of_Z 3)) 18
  = Some (S754_finite false 4728779608739020 (-50), S754_finite false 8106479329266892 (-52)) /\
  div (Binary64.of_Z 21) (Binary64.of_Z 5) = S754_finite false 4728779608739021 (-50) /\
  div (Binary64.of_Z 9) (Binary64.of_Z 5) = S754_finite false 8106479329266893 (-52).
Proof. repeat split; vm_compute; reflexivity. Qed.




(** ** What every handler does with the disk and the response *)

#[local] Set Warnings "-clear-no-such-hyp".

Section Effects.

Lemma files_delete (p : string) (w : World) :
  files (deleteFileFromServer p w) = files w ∖ {[p]}.
Proof.
  unfold deleteFileFromServer. destruct (decide (p ∈ files w)); simpl; [reflexivity |].
  set_solver.
Qed.

Lemma files_written (p : string) (w : World) : files (written p w) = files w ∪ {[p]}.
Proof. reflexivity. Qed.

Lemma responses_written (p : string) (w : World) : responses (written p w) = responses w.
Proof. unfold responses, written, emit. simpl. rewrite omap_app. simpl. apply app_nil_r. Qed.

Lemma responses_start (fs : gset string) : responses (start fs) = [].
Proof. reflexivity. Qed.

Lemma files_start (fs : gset string) : files (start fs) = fs.
Proof. reflexivity. Qed.

End Effects.

(** Rewrite the responses and the files of a handler into a term over the
    initial set of files. *)
Ltac effects :=
  rewrite ?responses_respond, ?responses_delete, ?responses_written, ?responses_start,
    ?files_respond, ?files_delete, ?files_written, ?files_start.

(** X6.  Every handler answers exactly once, whatever the request, the
    library and the disk: no path sends two responses and none sends zero
    (the watermark handler: whenever its layout generator returns). *)
Theorem handlers_answer_once (env : Env) (req : Request) (fs : gset string) :
  length (responses (resizeImage env req fs)) = 1%nat /\
  length (responses (cropImage env req fs)) = 1%nat /\
  length (responses (filterImage env req fs)) = 1%nat /\
  length (responses (uploadImage req fs)) = 1%nat /\
  (forall w, waterMarkImage env req fs = Some w -> length (responses w) = 1%nat).
Proof.
  repeat split.
  - unfold resizeImage. repeat case_match; effects; reflexivity.
  - unfold cropImage. repeat case_match; effects; reflexivity.
  - unfold filterImage. repeat case_match; effects; reflexivity.
  - unfold uploadImage. repeat case_match; effects; reflexivity.
  - intros w. unfold waterMarkImage.
    repeat case_match; intros [= <-]; effects; reflexivity.
Qed.

(** X7.  Crop, filter and watermark never leave the upload behind: when a
    file was uploaded it is off the disk after the handler, on success, on
    a rejected parameter and on a library failure alike. *)
Theorem upload_always_removed (env : Env) (req : Request) (f : File) (fs : gset string) :
  file req = Some f ->
  (path f ∉ files (cropImage env req fs)) /\
  (path f ∉ files (filterImage env req fs)) /\
  (forall w, waterMarkImage env req fs = Some w -> path f ∉ files w).
Proof.
  intros Hfile. repeat split.
  - unfold cropImage. rewrite Hfile. repeat case_match; effects; set_solver.
  - unfold filterImage. rewrite Hfile. repeat case_match; effects; set_solver.
  - intros w. unfold waterMarkImage. rewrite Hfile.
    repeat case_match; intros [= <-]; effects; set_solver.
Qed.

Lemma upload_always_removed_witness :
  (path demo_file ∉ files (cropImage small_image_env crop_req {[ path demo_file ]})) /\
  (path demo_file ∉ files (filterImage small_image_env crop_req {[ path demo_file ]})) /\
  (forall w, waterMarkImage small_image_env crop_req {[ path demo_file ]} = Some w ->
             path demo_file ∉ files w).
Proof.
  apply (upload_always_removed small_image_env crop_req demo_file {[ path demo_file ]}).
  reflexivity.
Defined.

(** X8.  The resize handler is the exception: when the library fails it
    answers 500 and leaves the disk as it was, the upload included; in
    every other outcome the upload is removed.  So an upload that was on
    disk is still there exactly when the dimensions were valid and sharp
    threw. *)
Theorem resize_failure_keeps_upload (env : Env) (req : Request) (f : File) (fs : gset string) :
  file req = Some f ->
  path f ∈ fs ->
  let width := parseInt (query req !! "width") in
  let height := parseInt (query req !! "height") in
  let failed :=
    isNaN width || isNaN height || le0 width || le0 height = false /\
    exists message,
      sharp_toFile env (path f) (Resize width height)
        (resolve env ("resized-" +:+ filename f)) = Throw message in
  (path f ∈ files (resizeImage env req fs) <-> failed) /\
  (failed ->
   resizeImage env req fs
   = {| files := fs;
        trace := [Responded {| status := 500; payload := Text "Error processing image." |}] |}).
Proof.
  intros Hfile Hin width height failed. subst failed.
  unfold resizeImage. rewrite Hfile. fold width height.
  destruct (isNaN width || isNaN height || le0 width || le0 height) eqn:Hdim.
  - split; [| intros [? _]; discriminate].
    effects. split; [set_solver | intros [? _]; discriminate].
  - rewrite (positive_not_falsy _ _ Hdim).
    destruct (sharp_toFile env (path f) (Resize width height) _) as [[] | message] eqn:Hsharp.
    + split; [| intros [_ [m Hm]]; discriminate].
      effects. split; [set_solver | intros [_ [m Hm]]; discriminate].
    + split; [| reflexivity]. effects. split; eauto.
Qed.

Lemma resize_failure_keeps_upload_witness :
  parseInt (query (sized_req demo_file) !! "width") = Int 100 /\
  parseInt (query (sized_req demo_file) !! "height") = Int 80 /\
  sharp_toFile small_image_env (path demo_file) (Resize (Int 100) (Int 80))
    (resolve small_image_env ("resized-" +:+ filename demo_file))
  = Throw "extract_area: bad extract area" /\
  path demo_file ∈ files (resizeImage small_image_env (sized_req demo_file) {[ path demo_file ]}) /\
  resizeImage small_image_env (sized_req demo_file) {[ path demo_file ]}
  = {| files := {[ path demo_file ]};
       trace := [Responded {| status := 500; payload := Text "Error processing image." |}] |}.
Proof.
  destruct (resize_failure_keeps_upload small_image_env (sized_req demo_file) demo_file
              {[ path demo_file ]} eq_refl ltac:(set_solver)) as [Hkept Hanswer].
  split; [reflexivity | split; [reflexivity | split; [reflexivity |]]].
  split; [apply Hkept | apply Hanswer]; (split; [reflexivity | eexists; reflexivity]).
Defined.

(** X9.  A handler changes the disk only at two places: it may remove the
    upload and it may add its one output path.  Every other file that was
    on disk stays, and nothing else appears; without an upload the disk is
    untouched. *)
Theorem handlers_frame (env : Env) (req : Request) (fs : gset string) :
  let touched (after : gset string) (output : File -> string) :=
    match file req with
    | Some f => fs ∖ {[path f]} ⊆ after /\ after ⊆ fs ∪ {[resolve env (output f)]}
    | None => after = fs
    end in
  touched (files (resizeImage env req fs)) (fun f => "resized-" +:+ filename f) /\
  touched (files (cropImage env req fs)) (fun f => "cropped-" +:+ filename f) /\
  touched (files (filterImage env req fs)) (fun f => "filtered-" +:+ originalname f) /\
  (forall w, waterMarkImage env req fs = Some w ->
     touched (files w)
       (fun f => "watermarked-" +:+ pretty (now env) +:+ "-" +:+ originalname f)).
Proof.
  intros touched. subst touched. cbv beta.
  repeat split.
  - unfold resizeImage. destruct (file req) as [f |]; [| reflexivity].
    repeat case_match; effects; set_solver.
  - unfold cropImage. destruct (file req) as [f |]; [| reflexivity].
    repeat case_match; effects; set_solver.
  - unfold filterImage. destruct (file req) as [f |]; [| reflexivity].
    repeat case_match; effects; set_solver.
  - intros w. unfold waterMarkImage. destruct (file req) as [f |]; [| now intros [= <-]].
    repeat case_match; intros [= <-]; effects; set_solver.
Qed.

(** ** The names of the outputs *)

Section Names.

Lemma length_append (s t : string) :
  String.length (s +:+ t) = (String.length s + String.length t)%nat.
Proof. induction s as [| a s IH]; simpl; [| rewrite IH]; reflexivity. Qed.

Lemma append_inv_tail (t s1 s2 : string) : s1 +:+ t = s2 +:+ t -> s1 = s2.
Proof.
  revert s2. induction s1 as [| a s1 IH]; intros [| b s2] H.
  - reflexivity.
  - apply (f_equal String.length) in H. rewrite !length_append in H. simpl in H. lia.
  - apply (f_equal String.length) in H. rewrite !length_append in H. simpl in H. lia.
  - change (String a (s1 +:+ t) = String b (s2 +:+ t)) in H.
    injection H as -> H. f_equal. now apply IH.
Qed.

Lemma append_assoc (s t u : string) : (s +:+ t) +:+ u = s +:+ t +:+ u.
Proof.
  induction s as [| a s IH]; [reflexivity |].
  change (String a ((s +:+ t) +:+ u) = String a (s +:+ t +:+ u)). now rewrite IH.
Qed.

Lemma resolve_inj (env env' : Env) (n n' : string) :
  cwd env = cwd env' -> resolve env n = resolve env' n' -> n = n'.
Proof.
  unfold resolve. intros -> H. apply String.app_inj in H. now apply String.app_inj in H.
Qed.

Lemma written_in_emit (p : string) (e : Event) (w : World) :
  Written p ∈ trace (emit e w) <-> Written p ∈ trace w \/ e = Written p.
Proof.
  unfold emit. simpl. rewrite elem_of_app, list_elem_of_singleton. intuition congruence.
Qed.

Lemma written_in_respond (p : string) (code : Z) (b : Payload) (w : World) :
  Written p ∈ trace (respond code b w) <-> Written p ∈ trace w.
Proof. unfold respond. rewrite written_in_emit. intuition discriminate. Qed.

Lemma written_in_delete (p q : string) (w : World) :
  Written p ∈ trace (deleteFileFromServer q w) <-> Written p ∈ trace w.
Proof.
  unfold deleteFileFromServer. destruct (decide _); rewrite written_in_emit; simpl;
    intuition discriminate.
Qed.

Lemma written_in_written (p q : string) (w : World) :
  Written p ∈ trace (written q w) <-> Written p ∈ trace w \/ q = p.
Proof. unfold written. rewrite written_in_emit. simpl. intuition congruence. Qed.

Lemma written_in_start (p : string) (fs : gset string) : Written p ∈ trace (start fs) <-> False.
Proof. simpl. apply elem_of_nil. Qed.

End Names.

(** Reduce "the handler wrote [p]" to an equation on [p]. *)
Ltac outputs :=
  rewrite ?written_in_respond, ?written_in_delete, ?written_in_written, ?written_in_start.

Section Outputs.

Lemma resize_output (env : Env) (req : Request) (fs : gset string) (p : string) :
  Written p ∈ trace (resizeImage env req fs) ->
  exists f, file req = Some f /\ p = resolve env ("resized-" +:+ filename f).
Proof.
  unfold resizeImage. repeat case_match; outputs; try tauto.
  intros [[] | <-]. eauto.
Qed.

Lemma crop_output (env : Env) (req : Request) (fs : gset string) (p : string) :
  Written p ∈ trace (cropImage env req fs) ->
  exists f, file req = Some f /\ p = resolve env ("cropped-" +:+ filename f).
Proof.
  unfold cropImage. repeat case_match; outputs; try tauto.
  intros [[] | <-]. eauto.
Qed.

Lemma watermark_output (env : Env) (req : Request) (fs : gset string) (w : World) (p : string) :
  waterMarkImage env req fs = Some w ->
  Written p ∈ trace w ->
  exists f, file req = Some f /\
    p = resolve env ("watermarked-" +:+ pretty (now env) +:+ "-" +:+ originalname f).
Proof.
  unfold waterMarkImage. repeat case_match; intros [= <-]; outputs; try tauto.
  intros [[] | <-]. eauto.
Qed.

End Outputs.

(** X10.  The outputs of resize and crop are as distinct as the stored
    names multer gave the uploads: of two requests served from the same
    directory, each resized and cropped with success, the two resize
    outputs are the same path exactly when the uploads have the same
    stored name, likewise the two crop outputs, and no resize output is a
    crop output. *)
Theorem resize_crop_outputs_distinct (env1 env2 : Env) (req1 req2 : Request)
    (f1 f2 : File) (fs1 fs2 : gset string) (r1 r2 c1 c2 : string) :
  cwd env1 = cwd env2 ->
  file req1 = Some f1 -> file req2 = Some f2 ->
  Written r1 ∈ trace (resizeImage env1 req1 fs1) ->
  Written r2 ∈ trace (resizeImage env2 req2 fs2) ->
  Written c1 ∈ trace (cropImage env1 req1 fs1) ->
  Written c2 ∈ trace (cropImage env2 req2 fs2) ->
  (r1 = r2 <-> filename f1 = filename f2) /\
  (c1 = c2 <-> filename f1 = filename f2) /\
  r1 <> c1 /\ r1 <> c2 /\ r2 <> c1 /\ r2 <> c2.
Proof.
  intros Hcwd Hf1 Hf2 Hr1 Hr2 Hc1 Hc2.
  apply resize_output in Hr1 as (f & Hf & ->), Hr2 as (f' & Hf' & ->).
  apply crop_output in Hc1 as (g & Hg & ->), Hc2 as (g' & Hg' & ->).
  assert (f = f1) as -> by congruence. assert (f' = f2) as -> by congruence.
  assert (g = f1) as -> by congruence. assert (g' = f2) as -> by congruence.
  assert (forall a b : string, resolve env1 a = resolve env2 b -> a = b) as Hinj
    by (intros a b H; now apply resolve_inj in H).
  assert (forall a b : string, resolve env1 a = resolve env1 b -> a = b) as Hinj1
    by (intros a b H; now apply resolve_inj in H).
  assert (forall a b : string, resolve env2 a = resolve env2 b -> a = b) as Hinj2
    by (intros a b H; now apply resolve_inj in H).
  repeat split.
  - intros H. apply Hinj in H. now apply String.app_inj in H.
  - intros H. unfold resolve. now rewrite Hcwd, H.
  - intros H. apply Hinj in H. now apply String.app_inj in H.
  - intros H. unfold resolve. now rewrite Hcwd, H.
  - intros H. apply Hinj1 in H. discriminate H.
  - intros H. apply Hinj in H. discriminate H.
  - intros H. symmetry in H. apply Hinj in H. discriminate H.
  - intros H. apply Hinj2 in H. discriminate H.
Qed.

Lemma resize_crop_outputs_distinct_witness :
  ("/srv/src/images/resized-image-1700000000000-42.jpg"
   = "/srv/src/images/resized-image-1700000005000-7.jpg"
   <-> filename demo_file = filename later_file) /\
  ("/srv/src/images/cropped-image-1700000000000-42.jpg"
   = "/srv/src/images/cropped-image-1700000005000-7.jpg"
   <-> filename demo_file = filename later_file) /\
  "/srv/src/images/resized-image-1700000000000-42.jpg"
  <> "/srv/src/images/cropped-image-1700000000000-42.jpg" /\
  "/srv/src/images/resized-image-1700000000000-42.jpg"
  <> "/srv/src/images/cropped-image-1700000005000-7.jpg" /\
  "/srv/src/images/resized-image-1700000005000-7.jpg"
  <> "/srv/src/images/cropped-image-1700000000000-42.jpg" /\
  "/srv/src/images/resized-image-1700000005000-7.jpg"
  <> "/srv/src/images/cropped-image-1700000005000-7.jpg".
Proof.
  refine (resize_crop_outputs_distinct demo_env later_env (sized_req demo_file)
            (sized_req later_file) demo_file later_file
            {[ path demo_file ]} {[ path later_file ]} _ _ _ _
            eq_refl eq_refl eq_refl _ _ _ _);
    vm_compute; apply list_elem_of_In; left; reflexivity.
Defined.

(** X11.  The watermark output is named after the clock and the original
    name only: two watermark requests for files with the same original
    name, served from the same directory, write the same path exactly when
    they read the same millisecond from the clock. *)
Theorem watermark_outputs_by_clock (env1 env2 : Env) (req1 req2 : Request)
    (f1 f2 : File) (fs1 fs2 : gset string) (w1 w2 : World) (p1 p2 : string) :
  cwd env1 = cwd env2 ->
  file req1 = Some f1 -> file req2 = Some f2 ->
  originalname f1 = originalname f2 ->
  waterMarkImage env1 req1 fs1 = Some w1 -> Written p1 ∈ trace w1 ->
  waterMarkImage env2 req2 fs2 = Some w2 -> Written p2 ∈ trace w2 ->
  (p1 = p2 <-> now env1 = now env2).
Proof.
  intros Hcwd Hf1 Hf2 Hname Hw1 Hp1 Hw2 Hp2.
  destruct (watermark_output _ _ _ _ _ Hw1 Hp1) as (f & Hf & ->).
  destruct (watermark_output _ _ _ _ _ Hw2 Hp2) as (f' & Hf' & ->).
  assert (f = f1) as -> by congruence. assert (f' = f2) as -> by congruence.
  split.
  - intros H. apply resolve_inj in H; [| assumption].
    apply String.app_inj in H. rewrite Hname, <- !append_assoc in H.
    apply append_inv_tail in H. apply append_inv_tail in H.
    now apply pretty_Z_inj in H.
  - intros Hnow. unfold resolve. now rewrite Hcwd, Hnow, Hname.
Qed.

Lemma watermark_outputs_by_clock_witness :
  "/srv/src/images/watermarked-1700000000123-cat.jpg"
  = "/srv/src/images/watermarked-1700000005042-cat.jpg"
  <-> now demo_env = now later_env.
Proof.
  refine (watermark_outputs_by_clock demo_env later_env query_style_req
            {| query := {[ "watermark" := "hi" ]}; body := ∅; file := Some later_file |}
            demo_file later_file {[ path demo_file ]} {[ path later_file ]}
            _ _ _ _ eq_refl eq_refl eq_refl eq_refl _ _ _ _).
  - vm_compute. reflexivity.
  - vm_compute. apply list_elem_of_In. left. reflexivity.
  - vm_compute. reflexivity.
  - vm_compute. apply list_elem_of_In. left. reflexivity.
Defined.

(** ** Outcomes of the handlers *)

Section Outcomes.

Lemma delete_after_write (p out : string) (fs : gset string) :
  p ∈ fs ->
  deleteFileFromServer p (written out (start fs))
  = {| files := (fs ∪ {[out]}) ∖ {[p]}; trace := [Written out; Unlinked p] |}.
Proof.
  intros Hin. unfold deleteFileFromServer, written, start, emit. simpl.
  rewrite decide_True by set_solver. reflexivity.
Qed.

Lemma delete_at_start (p : string) (fs : gset string) :
  p ∈ fs ->
  deleteFileFromServer p (start fs) = {| files := fs ∖ {[p]}; trace := [Unlinked p] |}.
Proof.
  intros Hin. unfold deleteFileFromServer, start, emit. simpl.
  rewrite decide_True by exact Hin. reflexivity.
Qed.

Lemma truthy_nonempty (s : string) : s <> "" -> truthy (Some s) = true.
Proof. intros H. unfold truthy. apply String.eqb_neq in H. now rewrite H. Qed.

Lemma text_supplied (req : Request) :
  truthy (either req "watermark") = true ->
  negb (truthy (query req !! "watermark")) && negb (truthy (body req !! "watermark")) = false.
Proof.
  unfold either, JS.or. destruct (truthy (query req !! "watermark")) eqn:E; [reflexivity |].
  intros ->. reflexivity.
Qed.


End Outcomes.

(** X12.  Resize and crop reject a width or height (cropWidth or
    cropHeight) that is missing, not a number or not positive: the upload
    is unlinked, the answer is 400 with the handler's message, and sharp is
    never consulted, so the outcome is the same under every library. *)
Theorem dimensions_validated (env env' : Env) (req : Request) (f : File) (fs : gset string) :
  file req = Some f ->
  path f ∈ fs ->
  let invalid (a b : int) := isNaN a || isNaN b || le0 a || le0 b in
  (invalid (parseInt (query req !! "width")) (parseInt (query req !! "height")) = true ->
   resizeImage env req fs
   = {| files := fs ∖ {[path f]};
        trace := [Unlinked (path f);
                  Responded {| status := 400;
                               payload := Json [("message", "Please specify valid positive values for width and height.")] |}] |} /\
   resizeImage env' req fs = resizeImage env req fs) /\
  (invalid (parseInt (either req "cropWidth")) (parseInt (either req "cropHeight")) = true ->
   cropImage env req fs
   = {| files := fs ∖ {[path f]};
        trace := [Unlinked (path f);
                  Responded {| status := 400;
                               payload := Json [("message", "Please specify valid positive values for cropWidth and cropHeight.")] |}] |} /\
   cropImage env' req fs = cropImage env req fs).
Proof.
  intros Hfile Hin invalid. subst invalid. cbv beta. split; intros Hinv.
  - unfold resizeImage. rewrite Hfile, Hinv, delete_at_start by exact Hin. split; reflexivity.
  - unfold cropImage. rewrite Hfile, Hinv, delete_at_start by exact Hin. split; reflexivity.
Qed.

Lemma dimensions_validated_witness :
  let invalid (a b : int) := isNaN a || isNaN b || le0 a || le0 b in
  (invalid (parseInt (query no_text_req !! "width")) (parseInt (query no_text_req !! "height")) = true ->
   resizeImage demo_env no_text_req {[ path demo_file ]}
   = {| files := {[ path demo_file ]} ∖ {[path demo_file]};
        trace := [Unlinked (path demo_file);
                  Responded {| status := 400;
                               payload := Json [("message", "Please specify valid positive values for width and height.")] |}] |} /\
   resizeImage small_image_env no_text_req {[ path demo_file ]}
   = resizeImage demo_env no_text_req {[ path demo_file ]}) /\
  (invalid (parseInt (either no_text_req "cropWidth")) (parseInt (either no_text_req "cropHeight")) = true ->
   cropImage demo_env no_text_req {[ path demo_file ]}
   = {| files := {[ path demo_file ]} ∖ {[path demo_file]};
        trace := [Unlinked (path demo_file);
                  Responded {| status := 400;
                               payload := Json [("message", "Please specify valid positive values for cropWidth and cropHeight.")] |}] |} /\
   cropImage small_image_env no_text_req {[ path demo_file ]}
   = cropImage demo_env no_text_req {[ path demo_file ]}).
Proof.
  apply (dimensions_validated demo_env small_image_env no_text_req demo_file {[ path demo_file ]});
    [reflexivity | set_solver].
Defined.

(** X13.  Crop checks nothing but the positivity of cropWidth and
    cropHeight: with those valid, the coordinates cropX and cropY go to the
    library as parsed, NaN included, and when the library accepts them the
    handler writes cropped-<stored name>, unlinks the upload and answers
    200 with the output path. *)
Theorem crop_coordinates_unchecked (env : Env) (req : Request) (f : File) (fs : gset string)
    (cropWidth cropHeight : Z) :
  file req = Some f ->
  path f ∈ fs ->
  parseInt (either req "cropWidth") = Int cropWidth -> (0 < cropWidth)%Z ->
  parseInt (either req "cropHeight") = Int cropHeight -> (0 < cropHeight)%Z ->
  let out := resolve env ("cropped-" +:+ filename f) in
  sharp_toFile env (path f)
    (Extract (Int cropWidth) (Int cropHeight)
       (parseInt (either req "cropX")) (parseInt (either req "cropY"))) out = Normal tt ->
  cropImage env req fs
  = {| files := (fs ∪ {[out]}) ∖ {[path f]};
       trace := [Written out; Unlinked (path f);
                 Responded {| status := 200;
                              payload := Json [("message", "Image cropped successfully!");
                                               ("path", out)] |}] |}.
Proof.
  intros Hfile Hin Hw Hwpos Hh Hhpos out Hsharp. unfold cropImage.
  rewrite Hfile, Hw, Hh. simpl isNaN. simpl le0.
  rewrite (proj2 (Z.leb_gt cropWidth 0) Hwpos), (proj2 (Z.leb_gt cropHeight 0) Hhpos).
  simpl orb. cbv iota. fold out. rewrite Hsharp, delete_after_write by exact Hin.
  reflexivity.
Qed.

Lemma crop_coordinates_unchecked_witness :
  let req := {| query := {[ "cropWidth" := "100"; "cropHeight" := "80" ]};
                body := {[ "cropX" := "left" ]}; file := Some demo_file |} in
  let out := resolve demo_env ("cropped-" +:+ filename demo_file) in
  cropImage demo_env req {[ path demo_file ]}
  = {| files := ({[ path demo_file ]} ∪ {[out]}) ∖ {[path demo_file]};
       trace := [Written out; Unlinked (path demo_file);
                 Responded {| status := 200;
                              payload := Json [("message", "Image cropped successfully!");
                                               ("path", out)] |}] |}.
Proof.
  intros req out.
  apply (crop_coordinates_unchecked demo_env req demo_file {[ path demo_file ]} 100 80);
    solve [reflexivity | set_solver | lia].
Defined.

(** X14.  The filter name is matched without regard to case and echoed as
    it was sent: any spelling of "grayscale" or "blur" runs the grayscale
    or the blur(20) pipeline into filtered-<original name>, and the answer
    repeats the filter as the request spelled it. *)
Theorem filter_name_case_insensitive (env : Env) (req : Request) (f : File)
    (fs : gset string) (name : string) (metadata : Metadata) :
  file req = Some f ->
  path f ∈ fs ->
  either req "filter" = Some name ->
  toLowerCase name = "grayscale" \/ toLowerCase name = "blur" ->
  sharp_metadata env (path f) = Normal metadata ->
  let out := resolve env ("filtered-" +:+ originalname f) in
  sharp_toFile env (path f)
    (if String.eqb (toLowerCase name) "grayscale" then Grayscale else Blur 20) out
  = Normal tt ->
  filterImage env req fs
  = {| files := (fs ∪ {[out]}) ∖ {[path f]};
       trace := [Written out; Unlinked (path f);
                 Responded {| status := 200;
                              payload := Json [("message", "Image filtered successfully!");
                                               ("path", out); ("filter", name)] |}] |}.
Proof.
  intros Hfile Hin Hname Hlow Hmeta out Hsharp. unfold filterImage.
  rewrite Hfile, Hname, Hmeta. fold out.
  assert (name <> "") as Hne by (intros ->; destruct Hlow; discriminate).
  rewrite (truthy_nonempty name Hne). simpl negb. cbv iota. simpl default.
  destruct Hlow as [Hl | Hl]; rewrite Hl in *; simpl String.eqb in *; cbv iota;
    change (String.eqb "blur" "grayscale") with false in *; cbv iota;
    rewrite Hsharp, delete_after_write by exact Hin; reflexivity.
Qed.

Lemma filter_name_case_insensitive_witness :
  let out := resolve demo_env ("filtered-" +:+ originalname demo_file) in
  filterImage demo_env (filter_req demo_file "GrayScale") {[ path demo_file ]}
  = {| files := ({[ path demo_file ]} ∪ {[out]}) ∖ {[path demo_file]};
       trace := [Written out; Unlinked (path demo_file);
                 Responded {| status := 200;
                              payload := Json [("message", "Image filtered successfully!");
                                               ("path", out); ("filter", "GrayScale")] |}] |}.
Proof.
  intros out.
  apply (filter_name_case_insensitive demo_env (filter_req demo_file "GrayScale") demo_file
           {[ path demo_file ]} "GrayScale" {| width := 640; height := 480 |});
    solve [reflexivity | set_solver | left; reflexivity].
Defined.

(** X15.  The filter handler reads the image before it looks at the filter
    name.  With a non-empty filter: an unreadable image is answered 500
    even when the filter is unknown, and an unknown filter is answered 400
    only once the metadata was read; in both cases the upload is unlinked
    and nothing is written. *)
Theorem filter_rejections (env : Env) (req : Request) (f : File) (fs : gset string)
    (name : string) :
  file req = Some f ->
  path f ∈ fs ->
  either req "filter" = Some name -> name <> "" ->
  let answered (r : Response) :=
    filterImage env req fs
    = {| files := fs ∖ {[path f]}; trace := [Unlinked (path f); Responded r] |} in
  (forall message, sharp_metadata env (path f) = Throw message ->
     answered {| status := 500; payload := Text "Error processing image." |}) /\
  (forall metadata, sharp_metadata env (path f) = Normal metadata ->
     toLowerCase name <> "grayscale" -> toLowerCase name <> "blur" ->
     answered {| status := 400;
                 payload := Json [("message", "Invalid filter. Supported filters are grayscale and blur.")] |}).
Proof.
  intros Hfile Hin Hname Hne answered. subst answered. cbv beta.
  split.
  - intros message Hmeta. unfold filterImage.
    rewrite Hfile, Hname, Hmeta, (truthy_nonempty name Hne), delete_at_start by exact Hin.
    reflexivity.
  - intros metadata Hmeta Hg Hb. unfold filterImage.
    rewrite Hfile, Hname, Hmeta, (truthy_nonempty name Hne), delete_at_start by exact Hin.
    simpl negb. cbv iota. simpl default.
    apply String.eqb_neq in Hg, Hb. rewrite Hg, Hb. reflexivity.
Qed.

Lemma filter_rejections_witness :
  let answered (r : Response) :=
    filterImage demo_env (filter_req demo_file "sepia") {[ path demo_file ]}
    = {| files := {[ path demo_file ]} ∖ {[path demo_file]};
         trace := [Unlinked (path demo_file); Responded r] |} in
  (forall message, sharp_metadata demo_env (path demo_file) = Throw message ->
     answered {| status := 500; payload := Text "Error processing image." |}) /\
  (forall metadata, sharp_metadata demo_env (path demo_file) = Normal metadata ->
     toLowerCase "sepia" <> "grayscale" -> toLowerCase "sepia" <> "blur" ->
     answered {| status := 400;
                 payload := Json [("message", "Invalid filter. Supported filters are grayscale and blur.")] |}).
Proof.
  apply (filter_rejections demo_env (filter_req demo_file "sepia") demo_file
           {[ path demo_file ]} "sepia");
    solve [reflexivity | set_solver | discriminate].
Defined.

(** X16.  An unknown watermark style is not rejected as a bad parameter:
    the generator's error is caught by the handler, which unlinks the
    upload, writes nothing and answers 500 with the details
    "Invalid watermark style", for every fuel. *)
Theorem watermark_unknown_style_500 (env : Env) (req : Request) (f : File)
    (fs : gset string) (metadata : Metadata) :
  file req = Some f ->
  path f ∈ fs ->
  truthy (either req "watermark") = true ->
  ~ known_style (watermarkStyle req) ->
  sharp_metadata env (path f) = Normal metadata ->
  waterMarkImage env req fs
  = Some {| files := fs ∖ {[path f]};
            trace := [Unlinked (path f);
                      Responded {| status := 500;
                                   payload := Json [("error", "Error processing image");
                                                    ("details", "Invalid watermark style")] |}] |}.
Proof.
  intros Hfile Hin Htext Hstyle Hmeta. unfold waterMarkImage.
  rewrite Hfile, (text_supplied req Htext), Hmeta.
  rewrite unknown_style_run by exact Hstyle.
  rewrite delete_at_start by exact Hin. reflexivity.
Qed.

Lemma watermark_unknown_style_500_witness :
  waterMarkImage demo_env
    {| query := {[ "watermark" := "hi"; "style" := "Grid" ]}; body := ∅;
       file := Some demo_file |} {[ path demo_file ]}
  = Some {| files := {[ path demo_file ]} ∖ {[path demo_file]};
            trace := [Unlinked (path demo_file);
                      Responded {| status := 500;
                                   payload := Json [("error", "Error processing image");
                                                    ("details", "Invalid watermark style")] |}] |}.
Proof.
  apply (watermark_unknown_style_500 demo_env _ demo_file {[ path demo_file ]}
           {| width := 640; height := 480 |});
    try solve [reflexivity | set_solver].
  unfold known_style. vm_compute. intros [H | [H | H]]; discriminate H.
Defined.




(** ** The upload middleware and the routes *)

(** X19.  The middleware lets a request through exactly when multer
    reported no error and stored a file; otherwise it answers 400 itself
    and stops.  It never touches the disk, and a request it lets through
    is passed on unanswered. *)
Theorem middleware_gate (err : option UploadError) (req : Request) (w : World) :
  let (w', next) := uploadMiddleware err req w in
  files w' = files w /\
  (next = true <-> err = None /\ is_Some (file req)) /\
  (next = true -> w' = w) /\
  (next = false -> exists p, w' = respond 400 p w).
Proof.
  unfold uploadMiddleware.
  destruct err as [[code message | message] |]; [destruct (String.eqb code _) | |
    destruct (file req) as [f |]];
    (split; [reflexivity |]); (split; [| split]); try discriminate; eauto;
    split; try discriminate; try (intros [? ?]; discriminate); auto.
  intros [_ [? ?]]. discriminate.
Qed.

Section Routes.

Lemma only_answer (r : Response) (code : Z) (p : Payload) (w : World) :
  responses w = [] ->
  r ∈ responses (respond code p w) -> r = {| status := code; payload := p |}.
Proof.
  intros Hw. rewrite responses_respond, Hw. simpl. now rewrite list_elem_of_singleton.
Qed.

End Routes.

(** The one answer of a handler run is not the missing-file answer. *)
Ltac has_file :=
  let r := fresh "r" in
  let Hr := fresh "Hr" in
  let Hno := fresh "Hno" in
  intros r Hr Hno;
  apply only_answer in Hr; [| effects; reflexivity];
  subst r; destruct Hno as [Hno | Hno]; discriminate Hno.

(** X20.  Behind the middleware the missing-file branch of every handler is
    dead: no route ever answers "No file uploaded".  A request without a
    file, when multer reported no error, gets the middleware's own answer
    400 {error: "No file", message: "Please upload an image"} on every
    route. *)
Theorem routes_never_reach_missing_file (err : option UploadError) (env : Env)
    (req : Request) (fs : gset string) :
  let silent (result : option World) :=
    forall w, result = Some w -> forall r, r ∈ responses w -> ~ no_file_answer r in
  let refused (result : option World) :=
    err = None -> file req = None ->
    result = Some {| files := fs;
                     trace := [Responded {| status := 400;
                                            payload := Json [("error", "No file");
                                                             ("message", "Please upload an image")] |}] |} in
  (silent (uploadImage_route err req fs) /\ refused (uploadImage_route err req fs)) /\
  (silent (resizeImage_route env err req fs) /\ refused (resizeImage_route env err req fs)) /\
  (silent (cropImage_route env err req fs) /\ refused (cropImage_route env err req fs)) /\
  (silent (filterImage_route env err req fs) /\ refused (filterImage_route env err req fs)) /\
  (silent (waterMarkImage_route env err req fs) /\ refused (waterMarkImage_route env err req fs)).
Proof.
  intros silent refused. subst silent refused. cbv beta.
  unfold uploadImage_route, resizeImage_route, cropImage_route, filterImage_route,
    waterMarkImage_route, route, uploadMiddleware.
  repeat split;
    try (intros -> Hnone; rewrite Hnone; reflexivity);
    intros w;
    (destruct err as [[code message | message] |];
      [destruct (String.eqb code _) | | destruct (file req) as [f |] eqn:Hfile]);
    try (intros [= <-]; has_file).
  - unfold uploadImage. rewrite Hfile. intros [= <-]. has_file.
  - unfold resizeImage. rewrite Hfile. repeat case_match; intros [= <-]; has_file.
  - unfold cropImage. rewrite Hfile. repeat case_match; intros [= <-]; has_file.
  - unfold filterImage. rewrite Hfile. repeat case_match; intros [= <-]; has_file.
  - unfold waterMarkImage. rewrite Hfile. repeat case_match; intros [= <-]; has_file.
Qed.

(** ** Names of uploads: extensions and the file filter *)

Section Extensions.

Lemma lower_dot (c : ascii) : Ascii.eqb (lower c) "." = Ascii.eqb c ".".
Proof. destruct c as [[] [] [] [] [] [] [] []]; vm_compute; reflexivity. Qed.

Lemma lower_idem (c : ascii) : lower (lower c) = lower c.
Proof. destruct c as [[] [] [] [] [] [] [] []]; vm_compute; reflexivity. Qed.

Lemma toLowerCase_idem (s : string) : toLowerCase (toLowerCase s) = toLowerCase s.
Proof. induction s as [| c s IH]; simpl; [| rewrite lower_idem, IH]; reflexivity. Qed.

Lemma last_dot_lower (s : string) :
  last_dot (toLowerCase s) = option_map toLowerCase (last_dot s).
Proof.
  induction s as [| c s IH]; simpl; [reflexivity |].
  rewrite IH, lower_dot. destruct (last_dot s); simpl; [reflexivity |].
  destruct (Ascii.eqb c "."); reflexivity.
Qed.

Lemma dotdot_lower (s : string) : String.eqb (toLowerCase s) ".." = String.eqb s "..".
Proof.
  destruct s as [| a [| b [| c s]]]; simpl; rewrite ?lower_dot; reflexivity.
Qed.

Lemma extname_lower (name : string) : extname (toLowerCase name) = toLowerCase (extname name).
Proof.
  destruct name as [| c r]; [reflexivity |].
  unfold extname. rewrite dotdot_lower. cbn [toLowerCase].
  rewrite last_dot_lower. destruct (last_dot r); cbn [option_map]; [| reflexivity].
  destruct (String.eqb (String c r) ".."); reflexivity.
Qed.

Lemma fileFilter_depends (file : Incoming) :
  fileFilter file
  = if fileTypes_test (toLowerCase (in_mimetype file))
       && fileTypes_test (toLowerCase (extname (in_originalname file)))
    then Normal true else Throw "Only images are allowed!".
Proof.
  unfold fileFilter, fileTypes_test. now rewrite !toLowerCase_idem.
Qed.

End Extensions.

(** X21.  The file filter looks at the extension and the MIME type in
    lower case only: two uploads whose original names and MIME types
    differ only in the case of their letters get the same verdict, and a
    name without an extension (no dot after its first character) is
    refused with "Only images are allowed!" whatever the MIME type. *)
Theorem fileFilter_case_and_extension (file other : Incoming) :
  toLowerCase (in_originalname file) = toLowerCase (in_originalname other) ->
  toLowerCase (in_mimetype file) = toLowerCase (in_mimetype other) ->
  fileFilter file = fileFilter other /\
  (extname (in_originalname file) = "" ->
   fileFilter file = Throw "Only images are allowed!").
Proof.
  intros Hname Hmime. split.
  - rewrite !fileFilter_depends, <- !extname_lower, Hname, Hmime. reflexivity.
  - intros Hext. rewrite fileFilter_depends, Hext.
    now destruct (fileTypes_test (toLowerCase (in_mimetype file))).
Qed.

Lemma fileFilter_case_and_extension_witness :
  fileFilter demo_incoming = fileFilter (lowered demo_incoming) /\
  (extname (in_originalname demo_incoming) = "" ->
   fileFilter demo_incoming = Throw "Only images are allowed!").
Proof.
  apply (fileFilter_case_and_extension demo_incoming (lowered demo_incoming)); reflexivity.
Defined.

(** ** The stored name of an upload *)

Section StoredNames.

Lemma occurs_app (c : ascii) (s t : string) :
  occurs c (s +:+ t) = occurs c s || occurs c t.
Proof.
  induction s as [| a s IH]; [reflexivity |].
  change (occurs c (String a (s +:+ t)) = occurs c (String a s) || occurs c t).
  simpl. rewrite IH. apply orb_assoc.
Qed.

Lemma pretty_N_char_plain (d : N) :
  Ascii.eqb (pretty_N_char d) "." = false /\ Ascii.eqb (pretty_N_char d) "-" = false.
Proof. unfold pretty_N_char. repeat case_match; split; reflexivity. Qed.

Lemma occurs_pretty_N_go (c : ascii) (x : N) (s : string) :
  c = "."%char \/ c = "-"%char -> occurs c (pretty_N_go x s) = occurs c s.
Proof.
  intros Hc. revert s. induction (N.lt_wf_0 x) as [x _ IH]. intros s.
  destruct (N.eq_dec x 0%N) as [-> | Hx]; [now rewrite pretty_N_go_0 |].
  rewrite pretty_N_go_step by lia. rewrite IH by (apply N.div_lt; lia).
  simpl. destruct (pretty_N_char_plain (x `mod` 10)%N) as [Hdot Hdash].
  destruct Hc as [-> | ->]; [rewrite Hdot | rewrite Hdash]; reflexivity.
Qed.

Lemma occurs_pretty_N (c : ascii) (x : N) :
  c = "."%char \/ c = "-"%char -> occurs c (pretty x) = false.
Proof.
  intros Hc. unfold pretty, pretty_N. destruct (decide (x = 0%N)).
  - destruct Hc as [-> | ->]; reflexivity.
  - now rewrite occurs_pretty_N_go.
Qed.

Lemma no_dot_in_pretty (z : Z) : occurs "." (pretty z) = false.
Proof.
  destruct z as [| q | q]; [reflexivity | |].
  - apply (occurs_pretty_N "." (N.pos q)). now left.
  - change (pretty (Z.neg q)) with ("-" +:+ pretty (N.pos q)).
    rewrite occurs_app, (occurs_pretty_N "." (N.pos q)) by now left. reflexivity.
Qed.

Lemma no_dash_in_pretty (z : Z) : (0 <= z)%Z -> occurs "-" (pretty z) = false.
Proof.
  destruct z as [| q | q]; [reflexivity | | lia].
  intros _. apply (occurs_pretty_N "-" (N.pos q)). now right.
Qed.

(** Two strings cut at their first dash. *)
Lemma split_at_dash (s1 s2 t1 t2 : string) :
  occurs "-" s1 = false -> occurs "-" s2 = false ->
  s1 +:+ String "-" t1 = s2 +:+ String "-" t2 -> s1 = s2 /\ t1 = t2.
Proof.
  revert s2. induction s1 as [| a s1 IH]; intros [| b s2] H1 H2 H.
  - injection H as ->. split; reflexivity.
  - change (String "-" t1 = String b (s2 +:+ String "-" t2)) in H.
    injection H as <- _. simpl in H2. discriminate H2.
  - change (String a (s1 +:+ String "-" t1) = String "-" t2) in H.
    injection H as -> _. simpl in H1. discriminate H1.
  - change (String a (s1 +:+ String "-" t1) = String b (s2 +:+ String "-" t2)) in H.
    injection H as -> H. simpl in H1, H2.
    apply orb_false_iff in H1 as [_ H1]. apply orb_false_iff in H2 as [_ H2].
    destruct (IH s2 H1 H2 H) as [-> ->]. split; reflexivity.
Qed.

Lemma storage_filename_shape (now : Z) (r : Q) (file : Incoming) :
  storage_filename now r file
  = in_fieldname file
    +:+ String "-" (pretty now
                    +:+ String "-" (pretty (Math_round (r * 1000000000))
                                    +:+ extname (in_originalname file))).
Proof. unfold storage_filename. cbv zeta. now rewrite !append_assoc. Qed.

Lemma last_dot_none (s : string) : last_dot s = None <-> occurs "." s = false.
Proof.
  induction s as [| c s IH]; simpl; [tauto |].
  destruct (last_dot s) as [e |].
  - split; [discriminate |]. intros H. apply orb_false_iff in H as [_ H].
    apply IH in H. discriminate H.
  - destruct (Ascii.eqb c "."); simpl; [split; discriminate |].
    split; [intros _; now apply IH | reflexivity].
Qed.

Lemma last_dot_fixed (s e : string) : last_dot s = Some e -> last_dot e = Some e.
Proof.
  induction s as [| c s IH]; simpl; [discriminate |].
  destruct (last_dot s) as [e' |] eqn:Hs.
  - intros [= <-]. now apply IH.
  - destruct (Ascii.eqb c ".") eqn:Hc; [| discriminate].
    intros [= <-]. simpl. now rewrite Hs, Hc.
Qed.

Lemma last_dot_app (s e : string) : last_dot e = Some e -> last_dot (s +:+ e) = Some e.
Proof.
  intros He. induction s as [| c s IH]; [exact He |].
  change (last_dot (String c (s +:+ e)) = Some e). simpl. now rewrite IH.
Qed.

Lemma extname_shape (name : string) :
  extname name = "" \/ last_dot (extname name) = Some (extname name).
Proof.
  destruct name as [| c r]; [now left |].
  unfold extname. destruct (last_dot r) as [e |] eqn:Hr; [| now left].
  destruct (String.eqb (String c r) ".."); [now left |].
  right. now apply last_dot_fixed in Hr.
Qed.

Lemma append_empty (s : string) : s +:+ "" = s.
Proof.
  induction s as [| c s IH]; [reflexivity |].
  change (String c (s +:+ "") = String c s). now rewrite IH.
Qed.

Lemma Math_round_nonneg (q : Q) : (0 <= q)%Q -> (0 <= Math_round q)%Z.
Proof.
  intros Hq. unfold Math_round. change 0%Z with (Qfloor 0).
  apply Qfloor_resp_le. lra.
Qed.

End StoredNames.

(** X22.  The stored name carries the clock and the rounded draw as a
    uniqueness token: two uploads under the same field and with the same
    extension get the same stored name only if they read the same
    millisecond and their draws round to the same integer. *)
Theorem stored_name_token (now1 now2 : Z) (r1 r2 : Q) (file1 file2 : Incoming) :
  (0 <= now1)%Z -> (0 <= now2)%Z ->
  in_fieldname file1 = in_fieldname file2 ->
  extname (in_originalname file1) = extname (in_originalname file2) ->
  storage_filename now1 r1 file1 = storage_filename now2 r2 file2 ->
  now1 = now2 /\ Math_round (r1 * 1000000000) = Math_round (r2 * 1000000000).
Proof.
  intros Hn1 Hn2 Hfield Hext H. rewrite !storage_filename_shape, Hfield, Hext in H.
  apply String.app_inj in H. injection H as H.
  apply split_at_dash in H as [Hnow H]; try now apply no_dash_in_pretty.
  apply append_inv_tail in H.
  split; [now apply pretty_Z_inj in Hnow | now apply pretty_Z_inj in H].
Qed.

Lemma stored_name_token_witness :
  1700000000000%Z = 1700000000000%Z /\
  Math_round ((1 # 4) * 1000000000) = Math_round ((2500000001 # 10000000000) * 1000000000).
Proof.
  apply (stored_name_token 1700000000000 1700000000000 (1 # 4) (2500000001 # 10000000000)
           demo_incoming demo_incoming); solve [lia | reflexivity].
Defined.

(** X23.  The stored name keeps the extension of the original name (and has
    none when the original has none), for every clock and draw, as long as
    the field name has no dot, as the configured field "image" has not. *)
Theorem stored_name_keeps_extension (now : Z) (r : Q) (file : Incoming) :
  occurs "." (in_fieldname file) = false ->
  extname (storage_filename now r file) = extname (in_originalname file).
Proof.
  intros Hfield. rewrite storage_filename_shape.
  set (ext := extname (in_originalname file)).
  set (rd := pretty (Math_round (r * 1000000000))).
  assert (exists c rest, in_fieldname file +:+ String "-" (pretty now +:+ String "-" rd) = String c rest
                         /\ occurs "." rest = false /\ occurs "-" (String c rest) = true)
    as (c & rest & Hstem & Hrest & Hdash).
  { destruct (in_fieldname file) as [| a fld].
    - exists "-"%char, (pretty now +:+ String "-" rd). split; [reflexivity |]. split; [| reflexivity].
      rewrite occurs_app. simpl. unfold rd. now rewrite !no_dot_in_pretty.
    - exists a, (fld +:+ String "-" (pretty now +:+ String "-" rd)). split; [reflexivity |].
      simpl in Hfield. apply orb_false_iff in Hfield as [_ Hfield]. split.
      + rewrite !occurs_app. simpl. rewrite occurs_app. simpl. unfold rd.
        now rewrite Hfield, !no_dot_in_pretty.
      + simpl. rewrite occurs_app. simpl. now rewrite !orb_true_r. }
  assert (in_fieldname file +:+ String "-" (pretty now +:+ String "-" (rd +:+ ext))
          = String c (rest +:+ ext)) as ->.
  { change (String c (rest +:+ ext)) with (String c rest +:+ ext).
    rewrite <- Hstem.
    repeat (rewrite append_assoc
            || match goal with
               | |- context [String ?a ?u +:+ ?v] =>
                   change (String a u +:+ v) with (String a (u +:+ v))
               end).
    reflexivity. }
  unfold extname at 1.
  assert (String.eqb (String c (rest +:+ ext)) ".." = false) as ->.
  { apply String.eqb_neq. intros Heq.
    assert (occurs "-" (String c rest +:+ ext) = false) as Hno
      by (change (String c rest +:+ ext) with (String c (rest +:+ ext)); now rewrite Heq).
    rewrite occurs_app, Hdash in Hno. discriminate Hno. }
  destruct (extname_shape (in_originalname file)) as [Hnone | Hsome];
    [fold ext in Hnone | fold ext in Hsome].
  - rewrite Hnone, append_empty. apply last_dot_none in Hrest. now rewrite Hrest.
  - now rewrite (last_dot_app rest ext Hsome).
Qed.

Lemma stored_name_keeps_extension_witness :
  extname (storage_filename 1700000000000 (1 # 4) demo_incoming)
  = extname (in_originalname demo_incoming).
Proof. apply (stored_name_keeps_extension 1700000000000 (1 # 4) demo_incoming). reflexivity. Defined.

(** ** Reading the numeric parameters *)

Section Numerals.

Lemma digit_pretty_N_char (d : N) :
  (d < 10)%N -> digit (pretty_N_char d) = Some (Z.of_N d).
Proof.
  intros Hd.
  assert (d = 0 \/ d = 1 \/ d = 2 \/ d = 3 \/ d = 4 \/ d = 5 \/ d = 6 \/ d = 7
          \/ d = 8 \/ d = 9)%N as H by lia.
  repeat destruct H as [H | H]; subst d; reflexivity.
Qed.

(** Printing [x] in front of a digit string [s] of value [v] gives a digit
    string of value [x * m + v], where [m] is the weight of [s]. *)
Lemma digits_pretty_N_go (x : N) :
  forall (s : string) (m v : Z),
    (forall a, digits (Some a) s = Some (m * a + v)%Z) ->
    exists m', forall a, digits (Some a) (pretty_N_go x s) = Some (m' * a + (Z.of_N x * m + v))%Z.
Proof.
  induction (N.lt_wf_0 x) as [x _ IH]. intros s m v Hs.
  destruct (N.eq_dec x 0%N) as [-> | Hx].
  - exists m. intros a. rewrite pretty_N_go_0, Hs. f_equal; lia.
  - rewrite pretty_N_go_step by lia.
    assert (x `mod` 10 < 10)%N as Hmod by (apply N.mod_lt; lia).
    destruct (IH (x `div` 10)%N ltac:(apply N.div_lt; lia)
                (String (pretty_N_char (x `mod` 10)%N) s) (10 * m)%Z
                (m * Z.of_N (x `mod` 10) + v)%Z) as [m' Hm'].
    + intros a. simpl. rewrite (digit_pretty_N_char _ Hmod). simpl. rewrite Hs. f_equal; lia.
    + exists m'. intros a. rewrite Hm'. f_equal.
      pose proof (N.div_mod x 10 ltac:(lia)) as Hdm.
      apply (f_equal Z.of_N) in Hdm. rewrite N2Z.inj_add, N2Z.inj_mul in Hdm.
      change (Z.of_N 10) with 10%Z in Hdm. lia.
Qed.

Lemma pretty_N_go_starts (x : N) (s : string) :
  (0 < x)%N -> exists c r d, pretty_N_go x s = String c r /\ digit c = Some d.
Proof.
  revert s. induction (N.lt_wf_0 x) as [x _ IH]. intros s Hx.
  rewrite pretty_N_go_step by lia.
  destruct (N.eq_dec (x `div` 10)%N 0%N) as [-> | Hq].
  - rewrite pretty_N_go_0. eexists _, _, _. split; [reflexivity |].
    apply digit_pretty_N_char, N.mod_lt. lia.
  - apply IH; [apply N.div_lt; lia | now apply N.neq_0_lt_0].
Qed.

Lemma parseInt_digit_first (c : ascii) (r : string) (d : Z) :
  digit c = Some d ->
  parseInt (Some (String c r))
  = match digits (Some 0%Z) (String c r) with Some z => Int z | None => NaN end.
Proof.
  destruct c as [[] [] [] [] [] [] [] []]; intros H; vm_compute in H; try discriminate H;
    reflexivity.
Qed.

Lemma digits_positive (q : positive) :
  digits (Some 0%Z) (pretty_N_go (N.pos q) "") = Some (Z.pos q).
Proof.
  destruct (digits_pretty_N_go (N.pos q) "" 1 0) as [m' Hm'].
  - intros a. simpl. f_equal; lia.
  - rewrite Hm'. f_equal; lia.
Qed.

(** [parseInt] reads back the decimal rendering of every integer. *)
Lemma parseInt_pretty (z : Z) : parseInt (Some (pretty z)) = Int z.
Proof.
  destruct z as [| q | q]; [reflexivity | |].
  - change (pretty (Z.pos q)) with (pretty_N_go (N.pos q) "").
    destruct (pretty_N_go_starts (N.pos q) "" ltac:(lia)) as (c & r & d & Heq & Hd).
    pose proof (digits_positive q) as Hq. rewrite Heq in *.
    now rewrite (parseInt_digit_first c r d Hd), Hq.
  - change (pretty (Z.neg q)) with (String "-" (pretty_N_go (N.pos q) "")).
    destruct (pretty_N_go_starts (N.pos q) "" ltac:(lia)) as (c & r & d & Heq & Hd).
    pose proof (digits_positive q) as Hq. rewrite Heq in *.
    change (parseInt (Some (String "-" (String c r))))
      with (match digits None (String c r) with Some z => Int (- z) | None => NaN end).
    assert (digits None (String c r) = digits (Some 0%Z) (String c r)) as ->
      by (simpl; now rewrite Hd).
    now rewrite Hq.
Qed.

End Numerals.

(** X24.  Resize reads its dimensions as the decimal integers written in
    the query: for positive width and height below 2^53 written in
    decimal, the library is asked for exactly that size, and when it
    succeeds the handler writes resized-<stored name>, unlinks the upload
    and answers 200 with the output path.  (From 2^53 on the number that
    parseInt returns is the double nearest to the numeral, which need not
    be the integer written.) *)
Theorem resize_reads_decimal (env : Env) (req : Request) (f : File) (fs : gset string)
    (width height : Z) :
  file req = Some f ->
  path f ∈ fs ->
  query req !! "width" = Some (pretty width) -> (0 < width < 2 ^ 53)%Z ->
  query req !! "height" = Some (pretty height) -> (0 < height < 2 ^ 53)%Z ->
  let out := resolve env ("resized-" +:+ filename f) in
  sharp_toFile env (path f) (Resize (Int width) (Int height)) out = Normal tt ->
  resizeImage env req fs
  = {| files := (fs ∪ {[out]}) ∖ {[path f]};
       trace := [Written out; Unlinked (path f);
                 Responded {| status := 200;
                              payload := Json [("message", "Image resized successfully!");
                                               ("path", out)] |}] |}.
Proof.
  intros Hfile Hin Hw Hwpos Hh Hhpos out Hsharp. unfold resizeImage.
  rewrite Hfile, Hw, Hh, !parseInt_pretty. simpl isNaN. simpl le0. simpl falsy.
  rewrite (proj2 (Z.leb_gt width 0) (proj1 Hwpos)), (proj2 (Z.leb_gt height 0) (proj1 Hhpos)).
  rewrite (proj2 (Z.eqb_neq width 0)) by lia.
  simpl orb. simpl andb. cbv iota. fold out. rewrite Hsharp, delete_after_write by exact Hin.
  reflexivity.
Qed.

Lemma resize_reads_decimal_witness :
  let req := {| query := {[ "width" := "100"; "height" := "80" ]}; body := ∅;
                file := Some demo_file |} in
  let out := resolve demo_env ("resized-" +:+ filename demo_file) in
  resizeImage demo_env req {[ path demo_file ]}
  = {| files := ({[ path demo_file ]} ∪ {[out]}) ∖ {[path demo_file]};
       trace := [Written out; Unlinked (path demo_file);
                 Responded {| status := 200;
                              payload := Json [("message", "Image resized successfully!");
                                               ("path", out)] |}] |}.
Proof.
  intros req out.
  apply (resize_reads_decimal demo_env req demo_file {[ path demo_file ]} 100 80);
    solve [reflexivity | set_solver | lia].
Defined.

(** ** Where uploads are stored *)

Section Destination.

Lemma ancestors_length (s prefix a : string) :
  a ∈ ancestors_from prefix s ->
  (String.length a <= String.length prefix + String.length s)%nat.
Proof.
  revert prefix. induction s as [| c s IH]; intros prefix; simpl.
  - rewrite list_elem_of_singleton. intros ->. lia.
  - rewrite elem_of_app. intros [Hin | Hin].
    + destruct (_ && _); [| now apply elem_of_nil in Hin].
      apply list_elem_of_singleton in Hin as ->. lia.
    + apply IH in Hin. rewrite length_append in Hin. simpl in Hin. lia.
Qed.

Lemma ancestors_self (s prefix : string) : prefix +:+ s ∈ ancestors_from prefix s.
Proof.
  revert prefix. induction s as [| c s IH]; intros prefix; simpl.
  - rewrite append_empty. now apply list_elem_of_singleton.
  - apply elem_of_app. right.
    replace (prefix +:+ String c s) with ((prefix +:+ String c "") +:+ s)
      by now rewrite append_assoc.
    apply IH.
Qed.

End Destination.

(** X25.  The directory the storage hands to multer is not the one it
    makes sure of: [ensureImagesDirectory] creates cwd/images (and its
    ancestors), so cwd/src/images, where the uploads are to be written,
    exists after the [destination] callback only if it existed before. *)
Theorem destination_never_created (cwd : string) (dirs : gset string) :
  let (dirs', destination) := storage_destination cwd dirs in
  destination = cwd +:+ "/src/images" /\
  (destination ∈ dirs' <-> destination ∈ dirs) /\
  cwd +:+ "/images" ∈ dirs'.
Proof.
  unfold storage_destination, ensureImagesDirectory, mkdir_recursive.
  split; [reflexivity |].
  destruct (decide (cwd +:+ "/images" ∈ dirs)) as [Hin | Hout]; [tauto |].
  split.
  - rewrite elem_of_union, elem_of_list_to_set. split; [| tauto].
    intros [H | H]; [exact H |].
    apply ancestors_length in H. rewrite !length_append in H. simpl in H. lia.
  - rewrite elem_of_union, elem_of_list_to_set. right.
    apply (ancestors_self (cwd +:+ "/images") "").
Qed.
